(** * backend/main.py: upload text extraction, reply parsing and record normalisation

    A shallow embedding of [backend/main.py].

    - A Python [str] is a sequence of code points ([list Z]); [bytes] is a
      sequence of octets ([list Z], each in [0, 256)).
    - A value produced by [json.loads] is a [json] tree; a [dict] keeps its
      insertion order (it is what the HTTP response serialises), so it is an
      association list read by first match and written in place.
    - A raised exception is the [Err] branch of [result].
    - Libraries the file calls but does not define (the PDF and DOCX readers,
      the chat-completion client, [json.loads]) are Section variables.
    - [str.upper] and [str.lower] come from CPython's Unicode tables, which
      are not part of this repository: in the normaliser they are the Section
      variables [str_upper] and [str_lower], and what a proof needs of them is
      a stated hypothesis.  Where the code only compares a lower-cased text
      with an ASCII literal (the reader dispatch and the fence tag) the ASCII
      map [lower] stands for [str.lower]: every such test has the same outcome
      under both, because the only characters outside ASCII whose lower case
      holds an ASCII letter are U+0130 (to [i] and U+0307) and U+212A (to
      [k]), and no tested literal has a [k] or an [i] followed by U+0307.
    - Whitespace is the full set of [str.isspace]. *)

From Stdlib Require Import ZArith List Bool Lia String Ascii.
From Stdlib Require Import Floats.SpecFloat.
Import ListNotations.
Open Scope Z_scope.

(** ** Strings *)

Definition codepoint := Z.
Definition str := list codepoint.
Definition byte := Z.

(** A source literal, as the code points of its ASCII characters. *)
Definition py (s : string) : str :=
  map (fun a => Z.of_N (N_of_ascii a)) (list_ascii_of_string s).

Fixpoint str_eqb (a b : str) : bool :=
  match a, b with
  | [], [] => true
  | x :: a', y :: b' => Z.eqb x y && str_eqb a' b'
  | _, _ => false
  end.

(** [str.isspace] on one code point ([Py_UNICODE_ISSPACE]); [\s] of the
    [re] module on a [str] pattern is the same set. *)
Definition isspace (c : codepoint) : bool :=
  ((9 <=? c) && (c <=? 13)) || ((28 <=? c) && (c <=? 32))
  || (c =? 133) || (c =? 160) || (c =? 5760)
  || ((8192 <=? c) && (c <=? 8202))
  || (c =? 8232) || (c =? 8233) || (c =? 8239) || (c =? 8287) || (c =? 12288).

Fixpoint lstrip (s : str) : str :=
  match s with
  | [] => []
  | c :: t => if isspace c then lstrip t else s
  end.

Definition rstrip (s : str) : str := rev (lstrip (rev s)).

(** [s.strip()] *)
Definition strip (s : str) : str := rstrip (lstrip s).

Definition upper_cp (c : codepoint) : codepoint :=
  if (97 <=? c) && (c <=? 122) then c - 32 else c.

Definition lower_cp (c : codepoint) : codepoint :=
  if (65 <=? c) && (c <=? 90) then c + 32 else c.

(** [s.upper()] and [s.lower()] on ASCII text: the letters change case, every
    other character stays. *)
Definition upper (s : str) : str := map upper_cp s.
Definition lower (s : str) : str := map lower_cp s.

(** [s.startswith(p)] *)
Fixpoint startswith (s p : str) {struct p} : bool :=
  match p, s with
  | [], _ => true
  | x :: p', y :: s' => Z.eqb x y && startswith s' p'
  | _ :: _, [] => false
  end.

(** [s.endswith(p)] *)
Definition endswith (s p : str) : bool := startswith (rev s) (rev p).

(** [p in s] *)
Fixpoint contains (s p : str) : bool :=
  startswith s p ||
  match s with
  | [] => false
  | _ :: t => contains t p
  end.

(** ** JSON values and exceptions *)

#[warnings="-register-all"]
Inductive json : Type :=
| JNull
| JBool (b : bool)
| JInt (z : Z)
| JFloat (f : spec_float)
| JStr (s : str)
| JList (l : list json)
| JDict (d : list (str * json)).

Definition dict := list (str * json).

Inductive exn : Type :=
| AttributeError
| TypeError
| UnboundLocalError
| JSONDecodeError (msg : str)
| LibraryError (msg : str).

Inductive result (A : Type) : Type :=
| Ok (a : A)
| Err (e : exn).
Arguments Ok {A} a.
Arguments Err {A} e.

Definition bind {A B} (r : result A) (k : A -> result B) : result B :=
  match r with
  | Ok a => k a
  | Err e => Err e
  end.

Notation "x <- c ;; k" := (bind c (fun x => k))
  (at level 61, c at next level, right associativity).

(** [d.get(k)], absent keys reading as [None] *)
Fixpoint dict_lookup (d : dict) (k : str) : option json :=
  match d with
  | [] => None
  | (k', v) :: d' => if str_eqb k' k then Some v else dict_lookup d' k
  end.

Definition dict_get (d : dict) (k : str) : json :=
  match dict_lookup d k with
  | Some v => v
  | None => JNull
  end.

(** [d[k] = v]: a present key keeps its place, a new one goes last. *)
Fixpoint dict_set (d : dict) (k : str) (v : json) : dict :=
  match d with
  | [] => [(k, v)]
  | (k', v') :: d' =>
      if str_eqb k' k then (k', v) :: d' else (k', v') :: dict_set d' k v
  end.

(** Truth value of an object, as [not], [or] and [if] test it. *)
Definition truthy (v : json) : bool :=
  match v with
  | JNull => false
  | JBool b => b
  | JInt z => negb (z =? 0)
  | JFloat (S754_zero _) => false
  | JFloat _ => true
  | JStr s => negb (str_eqb s [])
  | JList l => match l with [] => false | _ => true end
  | JDict d => match d with [] => false | _ => true end
  end.

(** [a or b] *)
Definition py_or (a b : json) : json := if truthy a then a else b.

(** The items a [for] loop or a comprehension draws from a value: the
    elements of a list, the one-character strings of a [str], the keys of a
    [dict]; anything else is not iterable. *)
Definition py_iter (v : json) : result (list json) :=
  match v with
  | JList l => Ok l
  | JStr s => Ok (map (fun c => JStr [c]) s)
  | JDict d => Ok (map (fun kv => JStr (fst kv)) d)
  | _ => Err TypeError
  end.

(** [v.strip()]: only a [str] has the method. *)
Definition strip_of (v : json) : result str :=
  match v with
  | JStr s => Ok (strip s)
  | _ => Err AttributeError
  end.

(** ** Regular expressions, as far as [re.fullmatch] needs them *)

Inductive regex : Type :=
| Void
| Eps
| Class (p : codepoint -> bool)
| Cat (r1 r2 : regex)
| Alt (r1 r2 : regex)
| Star (r : regex).

Definition Plus (r : regex) : regex := Cat r (Star r).

Fixpoint nullable (r : regex) : bool :=
  match r with
  | Void => false
  | Eps => true
  | Class _ => false
  | Cat r1 r2 => nullable r1 && nullable r2
  | Alt r1 r2 => nullable r1 || nullable r2
  | Star _ => true
  end.

Fixpoint deriv (c : codepoint) (r : regex) : regex :=
  match r with
  | Void => Void
  | Eps => Void
  | Class p => if p c then Eps else Void
  | Cat r1 r2 =>
      if nullable r1
      then Alt (Cat (deriv c r1) r2) (deriv c r2)
      else Cat (deriv c r1) r2
  | Alt r1 r2 => Alt (deriv c r1) (deriv c r2)
  | Star r1 => Cat (deriv c r1) (Star r1)
  end.

(** [re.fullmatch(r, s) is not None] *)
Fixpoint fullmatch (r : regex) (s : str) : bool :=
  match s with
  | [] => nullable r
  | c :: t => fullmatch (deriv c r) t
  end.

Definition is_AZ (c : codepoint) : bool := (65 <=? c) && (c <=? 90).

Definition ws_star : regex := Star (Class isspace).

(** One bracketed token: an opening bracket, one or more of [A-Z], a closing
    bracket. *)
Definition token_re : regex :=
  Cat (Class (Z.eqb 91)) (Cat (Plus (Class is_AZ)) (Class (Z.eqb 93))).

(** The pattern of [_null_if_placeholder]: whitespace, then one or more
    bracketed tokens, each followed by whitespace (both possibly empty). *)
Definition placeholder_re : regex :=
  Cat ws_star (Plus (Cat token_re ws_star)).

(** ** Normaliser helpers *)

Section CaseMaps.

(** [str.upper] and [str.lower] *)
Variable str_upper : str -> str.
Variable str_lower : str -> str.

Definition _null_if_placeholder (s : json) : result json :=
  if negb (truthy s) then Ok JNull
  else
    t <- strip_of s ;;
    if fullmatch placeholder_re t then Ok JNull
    else t' <- strip_of s ;; Ok (JStr t').

Definition _title (s : str) : str :=
  match s with
  | [] => s
  | _ => str_upper (firstn 1 s) ++ skipn 1 s
  end.

(** Truth value of [str(x).strip()].  For a [str], [str(x)] is [x]; the text
    of any other value ([None], [True], [12], [1.5], [[...]], [{...}]) begins
    with a character that is not whitespace. *)
Definition str_strip_truthy (x : json) : bool :=
  match x with
  | JStr s => match strip s with [] => false | _ => true end
  | _ => true
  end.

(** [[_title(x.strip()) for x in mi if str(x).strip()]] *)
Fixpoint tidy_illnesses (mi : list json) : result (list json) :=
  match mi with
  | [] => Ok []
  | x :: rest =>
      if str_strip_truthy x then
        s <- strip_of x ;;
        tl <- tidy_illnesses rest ;;
        Ok (JStr (_title s) :: tl)
      else tidy_illnesses rest
  end.

Definition or_none (v : json) : json := py_or v JNull.

(** The medication loop; the result is [cleaned], in append order. *)
Fixpoint clean_meds (meds : list json) : result (list json) :=
  match meds with
  | [] => Ok []
  | JDict m :: rest =>
      name <- strip_of (py_or (dict_get m (py "name")) (JStr [])) ;;
      match name with
      | [] => clean_meds rest
      | _ =>
          tl <- clean_meds rest ;;
          Ok (JDict [ (py "name", JStr (str_lower name));
                      (py "dose", or_none (dict_get m (py "dose")));
                      (py "route", or_none (dict_get m (py "route")));
                      (py "frequency", or_none (dict_get m (py "frequency")));
                      (py "duration", or_none (dict_get m (py "duration")));
                      (py "reason", or_none (dict_get m (py "reason"))) ] :: tl)
      end
  | _ :: rest => clean_meds rest
  end.

(** [re.sub] of the whitespace-run pattern by one space: every maximal run of whitespace becomes one
    space; [in_run] tells that the previous character belonged to a run. *)
Fixpoint sub_ws_runs (in_run : bool) (s : str) : str :=
  match s with
  | [] => []
  | c :: t =>
      if isspace c
      then if in_run then sub_ws_runs true t else 32 :: sub_ws_runs true t
      else c :: sub_ws_runs false t
  end.

Definition collapse_history (v : json) : result str :=
  ph <- strip_of (py_or v (JStr [])) ;;
  Ok (sub_ws_runs false ph).

(** The diagnosis loop; the result is [out], in append order. *)
Fixpoint clean_diagnoses (dx : list json) : result (list json) :=
  match dx with
  | [] => Ok []
  | JDict d :: rest =>
      label <- strip_of (py_or (dict_get d (py "label")) (JStr [])) ;;
      match label with
      | [] => clean_diagnoses rest
      | _ =>
          tl <- clean_diagnoses rest ;;
          Ok (JDict [ (py "label", JStr (_title label));
                      (py "code", or_none (dict_get d (py "code")));
                      (py "priority", or_none (dict_get d (py "priority"))) ] :: tl)
      end
  | _ :: rest => clean_diagnoses rest
  end.

(** ** The normaliser *)

Definition postprocess_dict (data : dict) : result dict :=
  name <- _null_if_placeholder (dict_get data (py "name")) ;;
  let data := dict_set data (py "name") name in
  mi <- py_iter (py_or (dict_get data (py "mental_illnesses")) (JList [])) ;;
  mi' <- tidy_illnesses mi ;;
  let data := dict_set data (py "mental_illnesses") (JList mi') in
  meds <- py_iter (py_or (dict_get data (py "medications_taken")) (JList [])) ;;
  cleaned <- clean_meds meds ;;
  let data := dict_set data (py "medications_taken") (JList cleaned) in
  ph <- collapse_history (dict_get data (py "past_history")) ;;
  let data := dict_set data (py "past_history") (JStr ph) in
  dx <- py_iter (py_or (dict_get data (py "diagnoses")) (JList [])) ;;
  out <- clean_diagnoses dx ;;
  let data := dict_set data (py "diagnoses") (JList out) in
  Ok data.

(** [postprocess(data)]; a value that is not a [dict] has no [get]. *)
Definition postprocess (data : json) : result json :=
  match data with
  | JDict d => d' <- postprocess_dict d ;; Ok (JDict d')
  | _ => Err AttributeError
  end.

(** ** Text extraction *)

Definition is_continuation (b : byte) : bool := (128 <=? b) && (b <? 192).

(** [raw.decode("utf-8", errors="ignore")], after CPython's decoder.  An
    invalid start byte is skipped alone; a sequence broken at its k-th
    continuation byte loses the k bytes before it and decoding resumes at the
    offending byte; a sequence cut short by the end of the data is dropped. *)
Fixpoint utf8_decode_ignore (raw : list byte) : str :=
  match raw with
  | [] => []
  | b1 :: t1 =>
      if b1 <? 128 then b1 :: utf8_decode_ignore t1
      else if b1 <? 194 then utf8_decode_ignore t1
      else if b1 <? 224 then
        match t1 with
        | [] => []
        | b2 :: t2 =>
            if is_continuation b2
            then (b1 * 64 + b2 - (192 * 64 + 128)) :: utf8_decode_ignore t2
            else utf8_decode_ignore t1
        end
      else if b1 <? 240 then
        match t1 with
        | [] => []
        | b2 :: t2 =>
            if negb (is_continuation b2)
               || (if b2 <? 160 then b1 =? 224 else b1 =? 237)
            then utf8_decode_ignore t1
            else
              match t2 with
              | [] => []
              | b3 :: t3 =>
                  if is_continuation b3
                  then (b1 * 4096 + b2 * 64 + b3 - (224 * 4096 + 128 * 64 + 128))
                         :: utf8_decode_ignore t3
                  else utf8_decode_ignore t2
              end
        end
      else if b1 <? 245 then
        match t1 with
        | [] => []
        | b2 :: t2 =>
            if negb (is_continuation b2)
               || (if b2 <? 144 then b1 =? 240 else b1 =? 244)
            then utf8_decode_ignore t1
            else
              match t2 with
              | [] => []
              | b3 :: t3 =>
                  if negb (is_continuation b3) then utf8_decode_ignore t2
                  else
                    match t3 with
                    | [] => []
                    | b4 :: t4 =>
                        if is_continuation b4
                        then (b1 * 262144 + b2 * 4096 + b3 * 64 + b4
                              - (240 * 262144 + 128 * 4096 + 128 * 64 + 128))
                               :: utf8_decode_ignore t4
                        else utf8_decode_ignore t3
                    end
              end
        end
      else utf8_decode_ignore t1
  end.

Definition _read_txt (raw : list byte) : str := utf8_decode_ignore raw.

(** [sep.join(parts)] *)
Fixpoint join (sep : str) (parts : list str) : str :=
  match parts with
  | [] => []
  | [p] => p
  | p :: rest => p ++ sep ++ join sep rest
  end.

Record UploadFile : Type := mkUpload {
  filename : option str;
  content_type : option str
}.

Definition or_empty (s : option str) : str :=
  match s with
  | Some (c :: t) => c :: t
  | _ => []
  end.

Inductive event : Type :=
| CallExtractText
| CallInference (system_prompt user_prompt : str).

Inductive response : Type :=
| Response200 (body : json)
| HTTPException (status_code : Z) (detail : str)
| Unhandled (e : exn).

(** [content.strip(ch)] for a one-character argument *)
Fixpoint lstrip_char (ch : codepoint) (s : str) : str :=
  match s with
  | [] => []
  | c :: t => if c =? ch then lstrip_char ch t else s
  end.

Definition strip_char (ch : codepoint) (s : str) : str :=
  rev (lstrip_char ch (rev (lstrip_char ch s))).

(** The text handed to [json.loads]: the reply, trimmed, without its code
    fence and language tag.  The tag test compares with an ASCII literal, so
    [lower] stands for [str.lower] here. *)
Definition strip_fences (reply : str) : str :=
  let content := strip reply in
  if startswith content (py "```") then
    let content := strip (strip_char 96 content) in
    if startswith (lower content) (py "json")
    then strip (skipn 4 content)
    else content
  else content.

(** A computation together with the outward calls it made, in order. *)
Definition logged (A : Type) : Type := (list event * A)%type.

Definition done {A} (a : A) : logged A := ([], a).

Definition then_ {A B} (c : logged A) (k : A -> logged B) : logged B :=
  let (l1, a) := c in
  let (l2, b) := k a in
  (l1 ++ l2, b).

Notation "x <~ c ;; k" := (then_ c (fun x => k))
  (at level 61, c at next level, right associativity).

Definition SYSTEM_PROMPT : str :=
  py "You are a medical note information extractor. "
  ++ py "Return ONLY strict JSON (no markdown). "
  ++ py "Use null or [] for missing fields; never invent facts.".

Section Service.

(** The PDF library: the text of each page, [None] where a page has none. *)
Variable PdfReader_pages : list byte -> result (list (option str)).
(** The DOCX library: the text of each paragraph. *)
Variable Document_paragraphs : list byte -> result (list str).
(** The chat-completion client: system and user message to reply text. *)
Variable chat_completion : str -> str -> result str.
(** [json.loads] *)
Variable json_loads : str -> result json.
(** [str(e)] of a caught exception *)
Variable exn_text : exn -> str.
(** The instruction block of the user prompt. *)
Variable EXTRACTION_INSTRUCTIONS : str.

Definition _read_pdf (raw : list byte) : result str :=
  pages <- PdfReader_pages raw ;;
  Ok (join [10] (map or_empty pages)).

Definition _read_docx (raw : list byte) : result str :=
  paragraphs <- Document_paragraphs raw ;;
  Ok (join [10] paragraphs).

(** The tests compare with ASCII literals, so [lower] stands for
    [str.lower] here. *)
Definition extract_text_from_upload (file : UploadFile) (raw : list byte)
  : result str :=
  let name := lower (or_empty (filename file)) in
  let ctype := lower (or_empty (content_type file)) in
  if endswith name (py ".pdf") || contains ctype (py "pdf") then
    _read_pdf raw
  else if endswith name (py ".docx")
          || contains ctype (py "officedocument.wordprocessingml.document")
  then _read_docx raw
  else Ok (_read_txt raw).

(** The response parser: fence stripping, then [json.loads]. *)
Definition parse_reply (reply : str) : result json :=
  json_loads (strip_fences reply).

Definition user_prompt_of (text : str) : str :=
  EXTRACTION_INSTRUCTIONS ++ [10; 10] ++ py "NOTE TEXT:" ++ [10]
  ++ [34; 34; 34] ++ text ++ [34; 34; 34].

(** The two outward calls of the handler, each leaving its mark in the log. *)
Definition call_extractor (file : UploadFile) (raw : list byte)
  : logged (result str) :=
  ([CallExtractText], extract_text_from_upload file raw).

Definition call_inference (system_prompt user_prompt : str)
  : logged (result str) :=
  ([CallInference system_prompt user_prompt],
   chat_completion system_prompt user_prompt).

(** The body of the [try] block with its two handlers.  [content] is bound
    only once the client has answered, so the first handler has nothing to
    sample when the client itself raises a decode error. *)
Definition infer_and_normalize (user_prompt : str) : logged response :=
  reply <~ call_inference SYSTEM_PROMPT user_prompt ;;
  match reply with
  | Err (JSONDecodeError _) => done (Unhandled UnboundLocalError)
  | Err e => done (HTTPException 500 (py "Extraction failed: " ++ exn_text e))
  | Ok reply =>
      let content := strip_fences reply in
      match bind (json_loads content) postprocess with
      | Ok body => done (Response200 body)
      | Err (JSONDecodeError msg) =>
          done (HTTPException 500
                  (py "Model did not return valid JSON: "
                   ++ exn_text (JSONDecodeError msg)
                   ++ py "; content_sample=" ++ firstn 800 content))
      | Err e => done (HTTPException 500 (py "Extraction failed: " ++ exn_text e))
      end
  end.

(** [POST /extract] *)
Definition extract_patient_data (file : UploadFile) (raw : list byte)
  : logged response :=
  match raw with
  | [] => done (HTTPException 400 (py "Uploaded file is empty."))
  | _ =>
      extracted <~ call_extractor file raw ;;
      match extracted with
      | Err e => done (Unhandled e)
      | Ok extracted =>
          match strip extracted with
          | [] => done (HTTPException 400 (py "Could not read text from the file."))
          | text => infer_and_normalize (user_prompt_of text)
          end
      end
  end.

End Service.

(** ** Vocabulary of the statements *)

Definition blank (s : str) : bool := forallb isspace s.

(** A string is [solid] when it is not empty and neither begins nor ends
    with whitespace. *)
Definition solid (s : str) : Prop :=
  (exists c t, s = c :: t /\ isspace c = false) /\
  (exists t d, s = t ++ [d] /\ isspace d = false).

(** The five assignments of [postprocess], applied to [data]. *)
Definition store_fields (data : dict) (name : json) (mi cleaned : list json)
    (ph : str) (out : list json) : dict :=
  dict_set
    (dict_set
       (dict_set
          (dict_set (dict_set data (py "name") name)
                    (py "mental_illnesses") (JList mi))
          (py "medications_taken") (JList cleaned))
       (py "past_history") (JStr ph))
    (py "diagnoses") (JList out).

Definition normalized_keys : list str :=
  [py "name"; py "mental_illnesses"; py "medications_taken";
   py "past_history"; py "diagnoses"].

(** A record carrying an age, an extra key and a name. *)
Definition sample_record : dict :=
  [ (py "age", JStr (py "forty"));
    (py "name", JStr (py "Jane Doe"));
    (py "ward", JInt 7) ].

Definition sample_normalized : dict :=
  [ (py "age", JStr (py "forty"));
    (py "name", JStr (py "Jane Doe"));
    (py "ward", JInt 7);
    (py "mental_illnesses", JList []);
    (py "medications_taken", JList []);
    (py "past_history", JStr []);
    (py "diagnoses", JList []) ].

(** The words of a text: its maximal runs of characters that are not
    whitespace, in order; [cur] is the word being read. *)
Fixpoint words_from (cur : str) (s : str) : list str :=
  match s with
  | [] => match cur with [] => [] | _ => [cur] end
  | c :: t =>
      if isspace c
      then match cur with [] => words_from [] t | _ => cur :: words_from [] t end
      else words_from (cur ++ [c]) t
  end.

Definition words (s : str) : list str := words_from [] s.

(** A text trimmed at both ends, each inner run of whitespace made one
    space: its words, one space between neighbours. *)
Definition single_spaced (s : str) : str := join [32] (words s).

(** The strings a regular expression denotes. *)
Inductive matches : regex -> str -> Prop :=
| MEps : matches Eps []
| MClass p c : p c = true -> matches (Class p) [c]
| MCat r1 r2 s1 s2 :
    matches r1 s1 -> matches r2 s2 -> matches (Cat r1 r2) (s1 ++ s2)
| MAltL r1 r2 s : matches r1 s -> matches (Alt r1 r2) s
| MAltR r1 r2 s : matches r2 s -> matches (Alt r1 r2) s
| MStar0 r : matches (Star r) []
| MStarS r s1 s2 :
    matches r s1 -> matches (Star r) s2 -> matches (Star r) (s1 ++ s2).

(** A bracketed all-uppercase token. *)
Inductive bracket_token : str -> Prop :=
| BracketToken u :
    u <> [] -> forallb is_AZ u = true -> bracket_token (91 :: u ++ [93]).

(** One or more bracketed tokens, neighbours separated by whitespace or by
    nothing. *)
Inductive placeholder_tokens : str -> Prop :=
| TokensOne t : bracket_token t -> placeholder_tokens t
| TokensMore t w r :
    bracket_token t -> blank w = true -> placeholder_tokens r ->
    placeholder_tokens (t ++ w ++ r).

(** A reply with every field filled in, and what [postprocess] makes of it. *)
Definition sample_note : dict :=
  [ (py "name", JStr (py " Jane Doe "));
    (py "age", JInt 42);
    (py "mental_illnesses", JList [JStr (py " anxiety "); JStr (py "  ")]);
    (py "medications_taken",
       JList [ JDict [(py "name", JStr (py "Sertraline")); (py "dose", JStr (py "50 mg"))];
               JDict [(py "dose", JStr (py "1"))];
               JInt 7 ]);
    (py "past_history",
       JStr ([32; 32] ++ py "a" ++ [32; 32; 32] ++ py "b" ++ [9] ++ py "c" ++ [32]));
    (py "diagnoses",
       JList [ JDict [(py "label", JStr (py "depression")); (py "code", JStr (py "F32.1"))];
               JStr (py "x") ]) ].

Definition sample_note_normalized : dict :=
  [ (py "name", JStr (py "Jane Doe"));
    (py "age", JInt 42);
    (py "mental_illnesses", JList [JStr (py "Anxiety")]);
    (py "medications_taken",
       JList [ JDict [ (py "name", JStr (py "sertraline"));
                       (py "dose", JStr (py "50 mg"));
                       (py "route", JNull);
                       (py "frequency", JNull);
                       (py "duration", JNull);
                       (py "reason", JNull) ] ]);
    (py "past_history", JStr (py "a b c"));
    (py "diagnoses",
       JList [ JDict [ (py "label", JStr (py "Depression"));
                       (py "code", JStr (py "F32.1"));
                       (py "priority", JNull) ] ]) ].

(** The trimmed text of a required field; empty when the field is missing
    or holds no string. *)
Definition required_text (e : dict) (k : str) : str :=
  match dict_lookup e k with
  | Some (JStr s) => strip s
  | _ => []
  end.

(** An optional field: null when missing or when its value counts as false
    (null, [false], zero, an empty string, list or object), else the value. *)
Definition optional (e : dict) (k : str) : json :=
  match dict_lookup e k with
  | Some v => if truthy v then v else JNull
  | None => JNull
  end.

Definition medication_record (e : dict) (name : str) : json :=
  JDict [ (py "name", JStr (str_lower name));
          (py "dose", optional e (py "dose"));
          (py "route", optional e (py "route"));
          (py "frequency", optional e (py "frequency"));
          (py "duration", optional e (py "duration"));
          (py "reason", optional e (py "reason")) ].

(** What a medication entry becomes: nothing when it is no object or has no
    name left after trimming. *)
Definition kept_medication (m : json) : option json :=
  match m with
  | JDict e =>
      match required_text e (py "name") with
      | [] => None
      | name => Some (medication_record e name)
      end
  | _ => None
  end.

Fixpoint filter_map {A B} (f : A -> option B) (l : list A) : list B :=
  match l with
  | [] => []
  | x :: t =>
      match f x with
      | Some y => y :: filter_map f t
      | None => filter_map f t
      end
  end.

Definition kept_medications (meds : list json) : list json :=
  filter_map kept_medication meds.

(** A text with its first character in upper case. *)
Definition capitalized (s : str) : str :=
  match s with
  | [] => []
  | c :: t => str_upper [c] ++ t
  end.

Definition diagnosis_record (e : dict) (label : str) : json :=
  JDict [ (py "label", JStr (capitalized label));
          (py "code", optional e (py "code"));
          (py "priority", optional e (py "priority")) ].

Definition kept_diagnosis (d : json) : option json :=
  match d with
  | JDict e =>
      match required_text e (py "label") with
      | [] => None
      | label => Some (diagnosis_record e label)
      end
  | _ => None
  end.

Definition kept_diagnoses (dx : list json) : list json :=
  filter_map kept_diagnosis dx.

(** An entry whose required field, when it holds a value that counts as
    true, holds a string: the entries on which the loops do not raise. *)
Definition well_named (k : str) (m : json) : Prop :=
  match m with
  | JDict e =>
      match dict_get e k with
      | JStr _ => True
      | v => truthy v = false
      end
  | _ => True
  end.

(** A Unicode scalar value: a code point that is not a surrogate. *)
Definition scalar_value (c : codepoint) : Prop :=
  0 <= c <= 1114111 /\ ~ (55296 <= c <= 57343).

(** The UTF-8 form of one scalar value and of a text. *)
Definition utf8_encode_cp (c : codepoint) : list byte :=
  if c <? 128 then [c]
  else if c <? 2048 then [192 + c / 64; 128 + c mod 64]
  else if c <? 65536 then
    [224 + c / 4096; 128 + (c / 64) mod 64; 128 + c mod 64]
  else
    [240 + c / 262144; 128 + (c / 4096) mod 64; 128 + (c / 64) mod 64;
     128 + c mod 64].

Definition utf8_encode (text : str) : list byte := flat_map utf8_encode_cp text.


Definition text_upload : UploadFile :=
  mkUpload (Some (py "Note.TXT")) (Some (py "text/plain")).

(** A JSON text inside a code fence tagged [json]: the fence and the tag on
    the first line, the text, the closing fence on a line of its own. *)
Definition fenced (j : str) : str :=
  py "```json" ++ [10] ++ j ++ [10] ++ py "```".

(** A decoder that knows one document. *)
Definition decode_one_list (s : str) : result json :=
  if str_eqb s (py "[1]") then Ok (JList [JInt 1])
  else Err (JSONDecodeError (py "Expecting value")).

(** A value that is a string, or counts as false. *)
Definition text_or_nothing (v : json) : Prop :=
  match v with
  | JStr _ => True
  | _ => truthy v = false
  end.

Definition is_text (v : json) : Prop :=
  match v with
  | JStr _ => True
  | _ => False
  end.

(** A reply on which no step of [postprocess] raises. *)
Definition well_formed_reply (data : dict) : Prop :=
  text_or_nothing (dict_get data (py "name")) /\
  text_or_nothing (dict_get data (py "past_history")) /\
  (exists mi,
     py_iter (py_or (dict_get data (py "mental_illnesses")) (JList [])) = Ok mi /\
     Forall is_text mi) /\
  (exists meds,
     py_iter (py_or (dict_get data (py "medications_taken")) (JList [])) = Ok meds /\
     Forall (well_named (py "name")) meds) /\
  (exists dx,
     py_iter (py_or (dict_get data (py "diagnoses")) (JList [])) = Ok dx /\
     Forall (well_named (py "label")) dx).

(** What an entry of [mental_illnesses] becomes: nothing when it is blank. *)
Definition kept_illness (x : json) : option json :=
  match x with
  | JStr s =>
      match strip s with
      | [] => None
      | t => Some (JStr (capitalized t))
      end
  | _ => None
  end.

Definition has_key (d : dict) (k : str) : bool :=
  match dict_lookup d k with
  | Some _ => true
  | None => false
  end.

(** Spacing as the history field leaves it: every whitespace character is a
    space and no two of them are neighbours. *)
Fixpoint tidy_spacing (after_space : bool) (s : str) : bool :=
  match s with
  | [] => true
  | c :: t =>
      if isspace c
      then (c =? 32) && negb after_space && tidy_spacing true t
      else tidy_spacing false t
  end.

(** The characters a placeholder name is written with. *)
Definition placeholder_char (c : codepoint) : Prop :=
  c = 91 \/ c = 93 \/ is_AZ c = true \/ isspace c = true.

(** A text inside a code fence whose first line carries [tag] (possibly
    empty) after the backticks. *)
Definition fenced_with (tag j : str) : str :=
  py "```" ++ tag ++ [10] ++ j ++ [10] ++ py "```".

(** Stand-ins for the collaborators of the handler, for worked instances. *)
Definition no_pages : list byte -> result (list (option str)) :=
  fun _ => Ok [None; Some [32]; None].

Definition no_paragraphs : list byte -> result (list str) :=
  fun _ => Err (LibraryError (py "not a document")).

Definition reply_object : str -> str -> result str :=
  fun _ _ => Ok (py "{}").

Definition reply_list : str -> str -> result str :=
  fun _ _ => Ok (py "[1]").

Definition decode_sample (s : str) : result json :=
  if str_eqb s (py "{}") then Ok (JDict sample_note)
  else decode_one_list s.

Definition exn_name (e : exn) : str :=
  match e with
  | AttributeError => py "AttributeError"
  | TypeError => py "TypeError"
  | UnboundLocalError => py "UnboundLocalError"
  | JSONDecodeError msg => msg
  | LibraryError msg => msg
  end.

Definition pdf_upload : UploadFile :=
  mkUpload (Some (py "scan.PDF")) None.

Definition octet (b : byte) : Prop := 0 <= b < 256.

Definition docx_upload : UploadFile :=
  mkUpload (Some (py "Letter.DocX")) (Some (py "application/octet-stream")).

(** What one character of a string given for [mental_illnesses] becomes. *)
Definition kept_letter (c : codepoint) : option json :=
  if isspace c then None else Some (JStr (str_upper [c])).

(** * Properties *)

(** ** Strings and trimming *)

Lemma str_eqb_eq (a b : str) : str_eqb a b = true <-> a = b.
Proof.
  revert b; induction a as [|x a IH]; intros [|y b]; simpl; split;
    try discriminate; try reflexivity.
  - intros H. apply andb_true_iff in H as [Hx Hab].
    apply Z.eqb_eq in Hx. apply IH in Hab. congruence.
  - intros H. injection H as -> ->.
    rewrite Z.eqb_refl. simpl. now apply IH.
Qed.

Lemma str_eqb_refl (a : str) : str_eqb a a = true.
Proof. now apply str_eqb_eq. Qed.

Lemma str_eqb_neq (a b : str) : str_eqb a b = false <-> a <> b.
Proof.
  split.
  - intros H E. apply str_eqb_eq in E. congruence.
  - intros H. destruct (str_eqb a b) eqn:E; [|reflexivity].
    apply str_eqb_eq in E. contradiction.
Qed.

Lemma lstrip_app (u v : str) :
  lstrip (u ++ v) = if blank u then lstrip v else lstrip u ++ v.
Proof.
  induction u as [|c u IH]; simpl; [reflexivity|].
  destruct (isspace c); simpl; [exact IH | reflexivity].
Qed.

Lemma lstrip_blank (s : str) : blank s = true -> lstrip s = [].
Proof.
  induction s as [|c s IH]; simpl; [reflexivity|].
  destruct (isspace c); simpl; [exact IH | discriminate].
Qed.

Lemma lstrip_nil_blank (s : str) : lstrip s = [] -> blank s = true.
Proof.
  induction s as [|c s IH]; simpl; [reflexivity|].
  destruct (isspace c); simpl; [exact IH | discriminate].
Qed.

Lemma blank_rev (s : str) : blank (rev s) = blank s.
Proof.
  unfold blank. induction s as [|c s IH]; simpl; [reflexivity|].
  rewrite forallb_app, IH. simpl. rewrite andb_true_r. apply andb_comm.
Qed.

Lemma blank_app (u v : str) : blank (u ++ v) = blank u && blank v.
Proof. apply forallb_app. Qed.

(** [rstrip] by recursion from the left. *)
Lemma rstrip_cons (c : codepoint) (t : str) :
  rstrip (c :: t) = if blank t && isspace c then [] else c :: rstrip t.
Proof.
  unfold rstrip. simpl rev. rewrite lstrip_app, blank_rev.
  destruct (blank t) eqn:Ht; simpl.
  - destruct (isspace c); simpl.
    + reflexivity.
    + rewrite lstrip_blank by now rewrite blank_rev. reflexivity.
  - rewrite rev_app_distr. reflexivity.
Qed.

Lemma rstrip_nil : rstrip [] = [].
Proof. reflexivity. Qed.

Lemma rstrip_blank (s : str) : blank s = true -> rstrip s = [].
Proof.
  intros H. unfold rstrip. rewrite lstrip_blank; [reflexivity|].
  now rewrite blank_rev.
Qed.

Lemma rstrip_nil_blank (s : str) : rstrip s = [] -> blank s = true.
Proof.
  unfold rstrip. intros H.
  assert (E : lstrip (rev s) = []).
  { rewrite <- (rev_involutive (lstrip (rev s))), H. reflexivity. }
  apply lstrip_nil_blank in E. now rewrite blank_rev in E.
Qed.

Lemma rstrip_app_blank (s w : str) : blank w = true -> rstrip (s ++ w) = rstrip s.
Proof.
  intros Hw. induction s as [|c s IH]; simpl.
  - now apply rstrip_blank.
  - rewrite !rstrip_cons, IH, blank_app, Hw, andb_true_r. reflexivity.
Qed.

Lemma rstrip_app_solid (a x : str) :
  blank x = false -> rstrip (a ++ x) = a ++ rstrip x.
Proof.
  intros Hx. induction a as [|c a IH]; simpl; [reflexivity|].
  rewrite rstrip_cons, blank_app, Hx, andb_false_r. simpl. now rewrite IH.
Qed.

Lemma lstrip_blank_app (w s : str) : blank w = true -> lstrip (w ++ s) = lstrip s.
Proof. intros H. now rewrite lstrip_app, H. Qed.

(** The two trims commute. *)
Lemma lstrip_rstrip (s : str) : lstrip (rstrip s) = rstrip (lstrip s).
Proof.
  induction s as [|c s IH]; [reflexivity|].
  rewrite rstrip_cons. simpl lstrip.
  destruct (isspace c) eqn:Hc.
  - destruct (blank s) eqn:Hs; simpl.
    + rewrite lstrip_blank by assumption. reflexivity.
    + rewrite Hc. exact IH.
  - rewrite andb_false_r. simpl. rewrite Hc.
    rewrite rstrip_cons, Hc, andb_false_r. reflexivity.
Qed.

Lemma lstrip_idem (s : str) : lstrip (lstrip s) = lstrip s.
Proof.
  induction s as [|c s IH]; simpl; [reflexivity|].
  destruct (isspace c) eqn:Hc; [exact IH|]. simpl. now rewrite Hc.
Qed.

Lemma rstrip_idem (s : str) : rstrip (rstrip s) = rstrip s.
Proof.
  unfold rstrip. rewrite rev_involutive, lstrip_idem. reflexivity.
Qed.

Lemma strip_idem (s : str) : strip (strip s) = strip s.
Proof.
  unfold strip. rewrite lstrip_rstrip, lstrip_idem, rstrip_idem. reflexivity.
Qed.

Lemma strip_blank (s : str) : blank s = true -> strip s = [].
Proof. intros H. unfold strip. now rewrite lstrip_blank. Qed.

Lemma strip_nil_blank (s : str) : strip s = [] -> blank s = true.
Proof.
  unfold strip. intros H. apply rstrip_nil_blank in H.
  destruct (blank s) eqn:E; [reflexivity|].
  induction s as [|c s IH]; simpl in *; [discriminate|].
  destruct (isspace c) eqn:Hc; simpl in *.
  - now apply IH.
  - rewrite Hc in H. discriminate.
Qed.

Lemma strip_padded (w1 s w2 : str) :
  blank w1 = true -> blank w2 = true -> strip (w1 ++ s ++ w2) = strip s.
Proof.
  intros H1 H2. unfold strip.
  rewrite lstrip_blank_app by assumption.
  rewrite <- !lstrip_rstrip, rstrip_app_blank by assumption. reflexivity.
Qed.

Lemma lstrip_head (c : codepoint) (t : str) :
  isspace c = false -> lstrip (c :: t) = c :: t.
Proof. intros H. simpl. now rewrite H. Qed.

Lemma rstrip_last (t : str) (d : codepoint) :
  isspace d = false -> rstrip (t ++ [d]) = t ++ [d].
Proof.
  intros H. unfold rstrip. rewrite rev_app_distr. cbn [rev app].
  rewrite lstrip_head by assumption. cbn [rev]. now rewrite rev_involutive.
Qed.

Lemma strip_solid (s : str) : solid s -> strip s = s.
Proof.
  intros [(c & t & E1 & Hc) (u & d & E2 & Hd)]. unfold strip.
  rewrite E1, lstrip_head by assumption. rewrite <- E1, E2.
  now apply rstrip_last.
Qed.

Lemma lstrip_shape (s : str) :
  lstrip s = [] \/ exists c t, lstrip s = c :: t /\ isspace c = false.
Proof.
  induction s as [|c s IH]; simpl; [now left|].
  destruct (isspace c) eqn:Hc; [exact IH|]. right. now exists c, s.
Qed.

Lemma rstrip_shape (s : str) :
  rstrip s = [] \/ exists t d, rstrip s = t ++ [d] /\ isspace d = false.
Proof.
  unfold rstrip. destruct (lstrip_shape (rev s)) as [-> | (c & t & -> & Hc)].
  - now left.
  - right. exists (rev t), c. simpl. now split.
Qed.

Lemma strip_shape (s : str) : strip s = [] \/ solid (strip s).
Proof.
  destruct (strip s) as [|c t] eqn:E; [now left|right].
  assert (Hl : lstrip (c :: t) = c :: t).
  { rewrite <- E. unfold strip. now rewrite lstrip_rstrip, lstrip_idem. }
  assert (Hr : rstrip (c :: t) = c :: t).
  { rewrite <- E. unfold strip. now rewrite rstrip_idem. }
  assert (Hc : isspace c = false).
  { simpl in Hl. destruct (isspace c); [|reflexivity].
    exfalso. assert (L : (List.length (lstrip t) <= List.length t)%nat).
    { clear. induction t as [|x t IH]; simpl; [lia|].
      destruct (isspace x); simpl; lia. }
    rewrite Hl in L. simpl in L. lia. }
  destruct (rstrip_shape (c :: t)) as [Hn | (u & d & Hu & Hd)];
    rewrite Hr in *; [discriminate|].
  split; [now exists c, t | now exists u, d].
Qed.

(** ** Dictionaries *)

Lemma dict_lookup_set_same (d : dict) (k : str) (v : json) :
  dict_lookup (dict_set d k v) k = Some v.
Proof.
  induction d as [|[k' v'] d IH]; simpl.
  - now rewrite str_eqb_refl.
  - destruct (str_eqb k' k) eqn:E; simpl; rewrite E; [reflexivity | exact IH].
Qed.

Lemma dict_lookup_set_other (d : dict) (k k' : str) (v : json) :
  str_eqb k k' = false ->
  dict_lookup (dict_set d k v) k' = dict_lookup d k'.
Proof.
  intros Hk. induction d as [|[k0 v0] d IH]; simpl.
  - now rewrite Hk.
  - destruct (str_eqb k0 k) eqn:E; simpl.
    + apply str_eqb_eq in E. subst k0. now rewrite Hk.
    + now rewrite IH.
Qed.

Lemma dict_get_set_same (d : dict) (k : str) (v : json) :
  dict_get (dict_set d k v) k = v.
Proof. unfold dict_get. now rewrite dict_lookup_set_same. Qed.

Lemma dict_get_set_other (d : dict) (k k' : str) (v : json) :
  str_eqb k k' = false ->
  dict_get (dict_set d k v) k' = dict_get d k'.
Proof. intros H. unfold dict_get. now rewrite dict_lookup_set_other. Qed.

Lemma dict_set_unchanged (d : dict) (k : str) (v : json) :
  dict_lookup d k = Some v -> dict_set d k v = d.
Proof.
  induction d as [|[k' v'] d IH]; simpl; [discriminate|].
  destruct (str_eqb k' k) eqn:E.
  - intros H. injection H as ->. reflexivity.
  - intros H. now rewrite IH.
Qed.

Lemma bind_ok {A B} (r : result A) (k : A -> result B) (b : B) :
  bind r k = Ok b -> exists a, r = Ok a /\ k a = Ok b.
Proof. destruct r as [a|e]; simpl; [eauto | discriminate]. Qed.

(** ** The normaliser, read off the input mapping *)

(** Every field is computed from the value the input holds for it: the
    assignments made on the way never touch a field still to be read. *)
Lemma postprocess_dict_reads (data : dict) :
  postprocess_dict data =
    (name <- _null_if_placeholder (dict_get data (py "name")) ;;
     mi <- py_iter (py_or (dict_get data (py "mental_illnesses")) (JList [])) ;;
     mi' <- tidy_illnesses mi ;;
     meds <- py_iter (py_or (dict_get data (py "medications_taken")) (JList [])) ;;
     cleaned <- clean_meds meds ;;
     ph <- collapse_history (dict_get data (py "past_history")) ;;
     dx <- py_iter (py_or (dict_get data (py "diagnoses")) (JList [])) ;;
     out <- clean_diagnoses dx ;;
     Ok (store_fields data name mi' cleaned ph out)).
Proof.
  unfold postprocess_dict, store_fields.
  destruct (_null_if_placeholder _) as [name|]; cbn [bind]; [|reflexivity].
  rewrite dict_get_set_other by reflexivity.
  destruct (py_iter _) as [mi|]; cbn [bind]; [|reflexivity].
  destruct (tidy_illnesses mi) as [mi'|]; cbn [bind]; [|reflexivity].
  rewrite !dict_get_set_other by reflexivity.
  destruct (py_iter _) as [meds|]; cbn [bind]; [|reflexivity].
  destruct (clean_meds meds) as [cleaned|]; cbn [bind]; [|reflexivity].
  rewrite !dict_get_set_other by reflexivity.
  destruct (collapse_history _) as [ph|]; cbn [bind]; [|reflexivity].
  rewrite !dict_get_set_other by reflexivity.
  reflexivity.
Qed.

Lemma postprocess_dict_ok (data data' : dict) :
  postprocess_dict data = Ok data' ->
  exists name mi mi' meds cleaned ph dx out,
    _null_if_placeholder (dict_get data (py "name")) = Ok name /\
    py_iter (py_or (dict_get data (py "mental_illnesses")) (JList [])) = Ok mi /\
    tidy_illnesses mi = Ok mi' /\
    py_iter (py_or (dict_get data (py "medications_taken")) (JList [])) = Ok meds /\
    clean_meds meds = Ok cleaned /\
    collapse_history (dict_get data (py "past_history")) = Ok ph /\
    py_iter (py_or (dict_get data (py "diagnoses")) (JList [])) = Ok dx /\
    clean_diagnoses dx = Ok out /\
    data' = store_fields data name mi' cleaned ph out.
Proof.
  rewrite postprocess_dict_reads. intros H.
  apply bind_ok in H as (name & H1 & H).
  apply bind_ok in H as (mi & H2 & H).
  apply bind_ok in H as (mi' & H3 & H).
  apply bind_ok in H as (meds & H4 & H).
  apply bind_ok in H as (cleaned & H5 & H).
  apply bind_ok in H as (ph & H6 & H).
  apply bind_ok in H as (dx & H7 & H).
  apply bind_ok in H as (out & H8 & H).
  injection H as <-.
  exists name, mi, mi', meds, cleaned, ph, dx, out. repeat split; assumption.
Qed.

Lemma store_fields_other (data : dict) name mi cleaned ph out (k : str) :
  ~ In k normalized_keys ->
  dict_lookup (store_fields data name mi cleaned ph out) k = dict_lookup data k.
Proof.
  clear str_upper str_lower.
  intros Hk. unfold store_fields.
  rewrite !dict_lookup_set_other; [reflexivity|..];
    apply str_eqb_neq; intros <-; apply Hk; unfold normalized_keys; simpl; tauto.
Qed.

(** C9.  Whenever [postprocess] returns, the [age] entry of the mapping is
    what it was in the input (same value, or absent as before), and so is
    every key other than [name], [mental_illnesses], [medications_taken],
    [past_history] and [diagnoses]. *)
Theorem postprocess_frame (data data' : dict) :
  postprocess (JDict data) = Ok (JDict data') ->
  dict_lookup data' (py "age") = dict_lookup data (py "age") /\
  forall k, ~ In k normalized_keys -> dict_lookup data' k = dict_lookup data k.
Proof.
  intros H. simpl in H. apply bind_ok in H as (d & Hd & E). injection E as <-.
  apply postprocess_dict_ok in Hd
    as (name & mi & mi' & meds & cleaned & ph & dx & out & _ & _ & _ & _ & _ & _ & _ & _ & ->).
  split.
  - apply store_fields_other. unfold normalized_keys. simpl.
    intros [E|[E|[E|[E|[E|[]]]]]]; discriminate E.
  - intros k Hk. now apply store_fields_other.
Qed.

(** ** Malformed list entries *)

(** An entry of [mental_illnesses] that is not a string passes the filter,
    which tests [str(x)], and then has no [strip] to call. *)
Lemma tidy_illnesses_non_string (x : json) (rest : list json) :
  (forall s, x <> JStr s) -> tidy_illnesses (x :: rest) = Err AttributeError.
Proof.
  intros Hx. destruct x; try reflexivity. now destruct (Hx s).
Qed.

Lemma clean_meds_skips_non_object (x : json) (rest : list json) :
  (forall d, x <> JDict d) -> clean_meds (x :: rest) = clean_meds rest.
Proof.
  intros Hx. destruct x; try reflexivity. now destruct (Hx d).
Qed.

Lemma clean_diagnoses_skips_non_object (x : json) (rest : list json) :
  (forall d, x <> JDict d) -> clean_diagnoses (x :: rest) = clean_diagnoses rest.
Proof.
  intros Hx. destruct x; try reflexivity. now destruct (Hx d).
Qed.

(** C1.  The reply [{"mental_illnesses": [5]}] makes [postprocess] raise
    [AttributeError]: the entry is not dropped.  The same entry in
    [medications_taken] or in [diagnoses] is dropped and the call returns. *)
Theorem non_string_illness_raises :
  postprocess (JDict [(py "mental_illnesses", JList [JInt 5])])
    = Err AttributeError /\
  postprocess (JDict [(py "medications_taken", JList [JInt 5])])
    = Ok (JDict [ (py "medications_taken", JList []);
                  (py "name", JNull);
                  (py "mental_illnesses", JList []);
                  (py "past_history", JStr []);
                  (py "diagnoses", JList []) ]) /\
  postprocess (JDict [(py "diagnoses", JList [JInt 5])])
    = Ok (JDict [ (py "diagnoses", JList []);
                  (py "name", JNull);
                  (py "mental_illnesses", JList []);
                  (py "medications_taken", JList []);
                  (py "past_history", JStr []) ]).
Proof. repeat split; vm_compute; reflexivity. Qed.

(** ** The upload receiver *)

(** C4.  An upload with no bytes is answered with status 400 and the
    empty-upload message whatever its file name and content type, and neither
    the text extractor nor the inference client is called; an upload with at
    least one byte always reaches the extractor. *)
Theorem empty_upload_rejected
    (PdfReader_pages : list byte -> result (list (option str)))
    (Document_paragraphs : list byte -> result (list str))
    (chat_completion : str -> str -> result str)
    (json_loads : str -> result json)
    (exn_text : exn -> str)
    (EXTRACTION_INSTRUCTIONS : str)
    (file : UploadFile) :
  extract_patient_data PdfReader_pages Document_paragraphs chat_completion
    json_loads exn_text EXTRACTION_INSTRUCTIONS file []
  = ([], HTTPException 400 (py "Uploaded file is empty.")) /\
  forall b raw,
    hd_error (fst (extract_patient_data PdfReader_pages Document_paragraphs
                     chat_completion json_loads exn_text EXTRACTION_INSTRUCTIONS
                     file (b :: raw)))
    = Some CallExtractText.
Proof.
  split; [reflexivity|]. intros b raw.
  unfold extract_patient_data, call_extractor, then_.
  destruct (extract_text_from_upload _ _ file (b :: raw)) as [t|e];
    [|reflexivity].
  destruct (strip t); [reflexivity|].
  now destruct (infer_and_normalize _ _ _ _).
Qed.

(** ** Whitespace collapsing *)

Lemma words_from_blank (cur w : str) :
  blank w = true ->
  words_from cur w = match cur with [] => [] | _ => [cur] end.
Proof.
  revert cur. induction w as [|c w IH]; intros cur H; simpl in *; [reflexivity|].
  apply andb_true_iff in H as [Hc Hw]. rewrite Hc, IH by assumption.
  now destruct cur.
Qed.

Lemma words_from_app_blank (cur s w : str) :
  blank w = true -> words_from cur (s ++ w) = words_from cur s.
Proof.
  intros Hw. revert cur. induction s as [|c s IH]; intros cur; simpl.
  - now apply words_from_blank.
  - rewrite !IH. reflexivity.
Qed.

Lemma words_lstrip (s : str) : words (lstrip s) = words s.
Proof.
  unfold words. induction s as [|c s IH]; simpl; [reflexivity|].
  destruct (isspace c) eqn:Hc; [exact IH|]. simpl. now rewrite Hc.
Qed.

Lemma rstrip_split (s : str) : exists w, s = rstrip s ++ w /\ blank w = true.
Proof.
  induction s as [|c s (w & Hs & Hw)]; [now exists []|].
  rewrite rstrip_cons. destruct (blank s && isspace c) eqn:E.
  - exists (c :: s). split; [reflexivity|]. simpl.
    apply andb_true_iff in E as [-> ->]. reflexivity.
  - exists w. split; [|assumption]. simpl. congruence.
Qed.

Lemma words_rstrip (s : str) : words (rstrip s) = words s.
Proof.
  destruct (rstrip_split s) as (w & Hs & Hw).
  rewrite Hs at 2. unfold words. now rewrite words_from_app_blank.
Qed.

Lemma words_strip (s : str) : words (strip s) = words s.
Proof. unfold strip. now rewrite words_rstrip, words_lstrip. Qed.

Lemma words_from_nonempty (cur s : str) :
  blank s = false -> words_from cur s <> [].
Proof.
  revert cur. induction s as [|c s IH]; intros cur H; simpl in *; [discriminate|].
  destruct (isspace c) eqn:Hc; simpl in H.
  - destruct cur; [now apply IH | discriminate].
  - clear IH H. revert c cur Hc. induction s as [|x s IH]; intros c cur Hc; simpl.
    + destruct cur; discriminate.
    + destruct (isspace x) eqn:Hx.
      * destruct cur; discriminate.
      * now apply IH.
Qed.

Lemma join_cons (sep p : str) (rest : list str) :
  rest <> [] -> join sep (p :: rest) = p ++ sep ++ join sep rest.
Proof. destruct rest; [contradiction | reflexivity]. Qed.

(** On a text that does not end in whitespace, the substitution yields the
    words of the text with one space between them. *)
Lemma sub_ws_runs_words (t : str) :
  rstrip t = t ->
  sub_ws_runs true t = join [32] (words_from [] t) /\
  forall cur, cur <> [] ->
    cur ++ sub_ws_runs false t = join [32] (words_from cur t).
Proof.
  induction t as [|c t IH]; intros Ht.
  - split; [reflexivity|]. intros cur Hcur. simpl. rewrite app_nil_r.
    now destruct cur.
  - rewrite rstrip_cons in Ht.
    destruct (blank t && isspace c) eqn:E; [discriminate|].
    injection Ht as Ht. destruct (IH Ht) as [IHa IHb]. simpl.
    destruct (isspace c) eqn:Hc.
    + rewrite andb_true_r in E. split; [exact IHa|].
      intros cur Hcur. destruct cur as [|x cur]; [contradiction|].
      rewrite join_cons by now apply words_from_nonempty.
      rewrite IHa. reflexivity.
    + split.
      * apply (IHb [c]). discriminate.
      * intros cur Hcur. rewrite <- IHb by now destruct cur.
        now rewrite <- app_assoc.
Qed.

Lemma sub_ws_runs_start (t : str) :
  lstrip t = t -> sub_ws_runs false t = sub_ws_runs true t.
Proof.
  destruct t as [|c t]; [reflexivity|]. simpl.
  destruct (isspace c) eqn:Hc; [|reflexivity].
  intros H. exfalso.
  assert (L : forall u, (List.length (lstrip u) <= List.length u)%nat).
  { induction u as [|x u IHu]; simpl; [lia|]. destruct (isspace x); simpl; lia. }
  specialize (L t). rewrite H in L. simpl in L. lia.
Qed.

Lemma strip_lstrip_fixed (s : str) : lstrip (strip s) = strip s.
Proof. unfold strip. now rewrite lstrip_rstrip, lstrip_idem. Qed.

Lemma strip_rstrip_fixed (s : str) : rstrip (strip s) = strip s.
Proof. unfold strip. now rewrite rstrip_idem. Qed.

Lemma collapse_single_spaced (s : str) :
  sub_ws_runs false (strip s) = single_spaced s.
Proof.
  rewrite sub_ws_runs_start by apply strip_lstrip_fixed.
  destruct (sub_ws_runs_words (strip s) (strip_rstrip_fixed s)) as [H _].
  rewrite H. unfold single_spaced. fold (words (strip s)).
  now rewrite words_strip.
Qed.

(** C6.  Whenever [postprocess] returns on a mapping whose [past_history]
    is a string, the stored [past_history] is that string trimmed with each
    inner run of whitespace made a single space; a missing or null
    [past_history] gives the empty string; and the history made of two spaces,
    [a], three spaces, [b], a tab, [c] and a space becomes [a b c]. *)
Theorem past_history_collapsed (data data' : dict) :
  postprocess (JDict data) = Ok (JDict data') ->
  (forall s, dict_lookup data (py "past_history") = Some (JStr s) ->
     dict_lookup data' (py "past_history") = Some (JStr (single_spaced s)) /\
     single_spaced s = sub_ws_runs false (strip s)) /\
  (dict_lookup data (py "past_history") = None \/
   dict_lookup data (py "past_history") = Some JNull ->
     dict_lookup data' (py "past_history") = Some (JStr [])) /\
  single_spaced ([32; 32] ++ py "a" ++ [32; 32; 32] ++ py "b" ++ [9] ++ py "c" ++ [32])
    = py "a b c".
Proof.
  intros H. simpl in H. apply bind_ok in H as (d & Hd & E). injection E as <-.
  apply postprocess_dict_ok in Hd
    as (name & mi & mi' & meds & cleaned & ph & dx & out
        & _ & _ & _ & _ & _ & Hph & _ & _ & ->).
  assert (L : dict_lookup (store_fields data name mi' cleaned ph out)
                (py "past_history") = Some (JStr ph)).
  { unfold store_fields. rewrite dict_lookup_set_other by reflexivity.
    apply dict_lookup_set_same. }
  rewrite L. unfold collapse_history, dict_get in Hph.
  split; [|split].
  - intros s Hs. rewrite Hs in Hph. rewrite <- collapse_single_spaced.
    split; [|reflexivity]. unfold py_or in Hph.
    destruct s as [|c s]; simpl in Hph; injection Hph as <-; reflexivity.
  - intros [Hs | Hs]; rewrite Hs in Hph; simpl in Hph;
      injection Hph as <-; reflexivity.
  - vm_compute. reflexivity.
Qed.

(** ** The matcher decides the language of its pattern *)

Lemma nullable_matches (r : regex) : nullable r = true <-> matches r [].
Proof.
  induction r as [| |p|r1 IH1 r2 IH2|r1 IH1 r2 IH2|r IH]; simpl; split; intros H.
  - discriminate.
  - inversion H.
  - constructor.
  - reflexivity.
  - discriminate.
  - inversion H.
  - apply andb_true_iff in H as [H1 H2].
    apply (MCat r1 r2 [] []); [now apply IH1 | now apply IH2].
  - inversion H as [| |? ? s1 s2 M1 M2| | | |]; subst.
    match goal with E : _ ++ _ = [] |- _ => apply app_eq_nil in E as [-> ->] end.
    apply andb_true_iff. split; [now apply IH1 | now apply IH2].
  - apply orb_true_iff in H as [H|H];
      [apply MAltL; now apply IH1 | apply MAltR; now apply IH2].
  - apply orb_true_iff.
    inversion H; subst; [left; now apply IH1 | right; now apply IH2].
  - constructor.
  - reflexivity.
Qed.

Lemma deriv_sound (c : codepoint) (r : regex) :
  forall s, matches (deriv c r) s -> matches r (c :: s).
Proof.
  induction r as [| |p|r1 IH1 r2 IH2|r1 IH1 r2 IH2|r IH]; simpl; intros s H.
  - inversion H.
  - inversion H.
  - destruct (p c) eqn:Hp; inversion H; subst. now constructor.
  - destruct (nullable r1) eqn:N.
    + inversion H as [| | |? ? ? M|? ? ? M| |]; subst.
      * inversion M as [| |? ? s1 s2 M1 M2| | | |]; subst.
        apply (MCat r1 r2 (c :: s1) s2); [now apply IH1 | assumption].
      * apply (MCat r1 r2 [] (c :: s)); [now apply nullable_matches | now apply IH2].
    + inversion H as [| |? ? s1 s2 M1 M2| | | |]; subst.
      apply (MCat r1 r2 (c :: s1) s2); [now apply IH1 | assumption].
  - inversion H; subst; [apply MAltL; now apply IH1 | apply MAltR; now apply IH2].
  - inversion H as [| |? ? s1 s2 M1 M2| | | |]; subst.
    apply (MStarS r (c :: s1) s2); [now apply IH | assumption].
Qed.

Lemma deriv_complete (c : codepoint) (r : regex) (w : str) :
  matches r w -> forall s, w = c :: s -> matches (deriv c r) s.
Proof.
  induction 1 as [|p x Hp|r1 r2 s1 s2 M1 IH1 M2 IH2|r1 r2 u M IH|r1 r2 u M IH
                 |r|r s1 s2 M1 IH1 M2 IH2]; intros s E; simpl.
  - discriminate.
  - injection E as -> <-. rewrite Hp. constructor.
  - destruct s1 as [|x s1]; simpl in E.
    + subst s2. apply nullable_matches in M1. rewrite M1.
      apply MAltR. now apply IH2.
    + injection E as -> <-.
      assert (D : matches (Cat (deriv c r1) r2) (s1 ++ s2)).
      { constructor; [now apply IH1 | assumption]. }
      destruct (nullable r1); [now apply MAltL | assumption].
  - apply MAltL. now apply IH.
  - apply MAltR. now apply IH.
  - discriminate.
  - destruct s1 as [|x s1]; simpl in E.
    + now apply IH2.
    + injection E as -> <-. constructor; [now apply IH1 | assumption].
Qed.

Lemma fullmatch_matches (r : regex) (s : str) :
  fullmatch r s = true <-> matches r s.
Proof.
  revert r. induction s as [|c s IH]; intros r; simpl.
  - apply nullable_matches.
  - rewrite IH. split; [apply deriv_sound|].
    intros H. now apply (deriv_complete c r (c :: s)).
Qed.

Lemma ws_star_blank (w : str) : matches ws_star w <-> blank w = true.
Proof.
  unfold ws_star. split.
  - intros H. remember (Star (Class isspace)) as R eqn:ER.
    induction H as [| | | | | |r s1 s2 M1 _ M2 IH2]; try discriminate.
    + reflexivity.
    + injection ER as ->. inversion M1; subst. simpl.
      apply andb_true_iff. split; [assumption | now apply IH2].
  - induction w as [|c w IH]; simpl; intros H; [constructor|].
    apply andb_true_iff in H as [Hc Hw].
    apply (MStarS (Class isspace) [c] w); [now constructor | now apply IH].
Qed.

Lemma plus_AZ_matches (u : str) :
  matches (Plus (Class is_AZ)) u <-> u <> [] /\ forallb is_AZ u = true.
Proof.
  assert (S : forall v, matches (Star (Class is_AZ)) v <-> forallb is_AZ v = true).
  { intros v. split.
    - intros H. remember (Star (Class is_AZ)) as R eqn:ER.
      induction H as [| | | | | |r s1 s2 M1 _ M2 IH2]; try discriminate.
      + reflexivity.
      + injection ER as ->. inversion M1; subst. simpl.
        apply andb_true_iff. split; [assumption | now apply IH2].
    - induction v as [|c v IH]; simpl; intros H; [constructor|].
      apply andb_true_iff in H as [Hc Hv].
      apply (MStarS (Class is_AZ) [c] v); [now constructor | now apply IH]. }
  unfold Plus. split.
  - intros H. inversion H as [| |? ? s1 s2 M1 M2| | | |]; subst.
    inversion M1; subst. split; [discriminate|]. simpl.
    apply andb_true_iff. split; [assumption | now apply S].
  - intros [Hne H]. destruct u as [|c u]; [contradiction|]. simpl in H.
    apply andb_true_iff in H as [Hc Hu].
    apply (MCat (Class is_AZ) _ [c] u); [now constructor | now apply S].
Qed.

Lemma token_re_matches (t : str) : matches token_re t <-> bracket_token t.
Proof.
  unfold token_re. split.
  - intros H. inversion H as [| |? ? s1 s2 M1 M2| | | |]; subst.
    inversion M1 as [|? c Hc| | | | |]; subst.
    inversion M2 as [| |? ? u v Mu Mv| | | |]; subst.
    inversion Mv as [|? d Hd| | | | |]; subst.
    apply Z.eqb_eq in Hc, Hd. subst c d.
    apply plus_AZ_matches in Mu as [Hne Hu]. now constructor.
  - intros [u Hne Hu].
    apply (MCat _ _ [91] (u ++ [93])); [now constructor|].
    constructor; [now apply plus_AZ_matches | now constructor].
Qed.

Lemma bracket_token_solid (t : str) : bracket_token t -> solid t.
Proof.
  intros [u _ _]. split.
  - now exists 91, (u ++ [93]).
  - now exists (91 :: u), 93.
Qed.

Lemma placeholder_tokens_solid (p : str) : placeholder_tokens p -> solid p.
Proof.
  induction 1 as [t Ht|t w r Ht Hw _ IH]; [now apply bracket_token_solid|].
  destruct (bracket_token_solid t Ht) as [(c & t' & -> & Hc) _].
  destruct IH as [_ (r' & d & -> & Hd)]. split.
  - now exists c, (t' ++ w ++ r' ++ [d]).
  - exists ((c :: t') ++ w ++ r'), d. split; [|assumption].
    now rewrite <- !app_assoc.
Qed.

Lemma star_of_plus (g : regex) (s : str) :
  matches (Plus g) s -> matches (Star g) s.
Proof.
  unfold Plus. intros H. inversion H; subst. now constructor.
Qed.

(** A run of token groups is empty, or a token sequence and whitespace. *)
Lemma token_groups_shape (y : str) :
  matches (Star (Cat token_re ws_star)) y ->
  y = [] \/ exists p w, y = p ++ w /\ placeholder_tokens p /\ blank w = true.
Proof.
  intros H. remember (Star (Cat token_re ws_star)) as R eqn:ER.
  induction H as [| | | | | |r s1 s2 M1 _ M2 IH2]; try discriminate.
  - now left.
  - injection ER as ->. right.
    inversion M1 as [| |? ? t w1 Mt Mw| | | |]; subst.
    apply token_re_matches in Mt. apply ws_star_blank in Mw.
    destruct (IH2 eq_refl) as [-> | (p & w & -> & Hp & Hw)].
    + exists t, w1. rewrite app_nil_r. auto using TokensOne.
    + exists (t ++ w1 ++ p), w. split; [now rewrite <- !app_assoc|].
      split; [now apply TokensMore | assumption].
Qed.

Lemma tokens_match_groups (p w : str) :
  placeholder_tokens p -> blank w = true ->
  matches (Plus (Cat token_re ws_star)) (p ++ w).
Proof.
  intros Hp Hw. induction Hp as [t Ht|t w1 r Ht Hw1 _ IH].
  - rewrite <- (app_nil_r (t ++ w)). apply MCat; [|constructor].
    apply MCat; [now apply token_re_matches | now apply ws_star_blank].
  - replace ((t ++ w1 ++ r) ++ w) with ((t ++ w1) ++ (r ++ w))
      by now rewrite <- !app_assoc.
    apply MCat; [|now apply star_of_plus].
    apply MCat; [now apply token_re_matches | now apply ws_star_blank].
Qed.

(** The language of the placeholder pattern. *)
Lemma placeholder_re_matches (t : str) :
  matches placeholder_re t <->
  exists w1 p w2, t = w1 ++ p ++ w2 /\ blank w1 = true /\ blank w2 = true
                  /\ placeholder_tokens p.
Proof.
  unfold placeholder_re. split.
  - intros H. inversion H as [| |? ? w1 b M1 M2| | | |]; subst.
    apply ws_star_blank in M1. unfold Plus in M2.
    inversion M2 as [| |? ? x y Mx My| | | |]; subst.
    inversion Mx as [| |? ? tk w Mt Mw| | | |]; subst.
    apply token_re_matches in Mt. apply ws_star_blank in Mw.
    destruct (token_groups_shape y My) as [-> | (p & w2 & -> & Hp & Hw2)].
    + exists w1, tk, w. rewrite app_nil_r. auto using TokensOne.
    + exists w1, (tk ++ w ++ p), w2. split; [now rewrite <- !app_assoc|].
      repeat split; try assumption. now apply TokensMore.
  - intros (w1 & p & w2 & -> & H1 & H2 & Hp).
    apply MCat; [now apply ws_star_blank | now apply tokens_match_groups].
Qed.

(** On a trimmed name the pattern matches exactly the token sequences. *)
Lemma fullmatch_placeholder_strip (s : str) :
  fullmatch placeholder_re (strip s) = true <-> placeholder_tokens (strip s).
Proof.
  rewrite fullmatch_matches, placeholder_re_matches. split.
  - intros (w1 & p & w2 & E & H1 & H2 & Hp).
    assert (Es : strip s = p).
    { rewrite <- strip_idem, E, strip_padded by assumption.
      apply strip_solid. now apply placeholder_tokens_solid. }
    now rewrite Es.
  - intros Hp. exists [], (strip s), []. now rewrite app_nil_r.
Qed.

Lemma null_if_placeholder_str (s : str) :
  s <> [] ->
  _null_if_placeholder (JStr s) =
    Ok (if fullmatch placeholder_re (strip s) then JNull else JStr (strip s)).
Proof.
  intros Hs. unfold _null_if_placeholder. destruct s as [|c s]; [contradiction|].
  cbn [truthy str_eqb negb strip_of bind].
  now destruct (fullmatch placeholder_re (strip (c :: s))).
Qed.

(** ** The name field *)

(** C2.  Whenever [postprocess] returns on a mapping whose [name] is a
    non-empty string [s]: the stored name is null when [s] is a sequence of
    bracketed upper-case tokens (whitespace allowed between them, and around
    them since the test is made on the trimmed name); any other [s] is stored
    trimmed and otherwise unchanged.  The matcher decides that test. *)
Theorem name_placeholder_nulled (data data' : dict) (s : str) :
  postprocess (JDict data) = Ok (JDict data') ->
  dict_lookup data (py "name") = Some (JStr s) ->
  s <> [] ->
  (placeholder_tokens s -> dict_lookup data' (py "name") = Some JNull) /\
  (placeholder_tokens (strip s) -> dict_lookup data' (py "name") = Some JNull) /\
  (~ placeholder_tokens (strip s) ->
     dict_lookup data' (py "name") = Some (JStr (strip s))) /\
  (fullmatch placeholder_re (strip s) = false -> ~ placeholder_tokens (strip s)).
Proof.
  intros H Hname Hs. simpl in H. apply bind_ok in H as (d & Hd & E).
  injection E as <-.
  apply postprocess_dict_ok in Hd
    as (name & mi & mi' & meds & cleaned & ph & dx & out
        & Hn & _ & _ & _ & _ & _ & _ & _ & ->).
  assert (L : dict_lookup (store_fields data name mi' cleaned ph out) (py "name")
              = Some name).
  { unfold store_fields. rewrite !dict_lookup_set_other by reflexivity.
    apply dict_lookup_set_same. }
  rewrite L. unfold dict_get in Hn. rewrite Hname in Hn.
  rewrite null_if_placeholder_str in Hn by assumption. injection Hn as <-.
  assert (D : forall P : Prop,
             (fullmatch placeholder_re (strip s) = true <-> P) ->
             (P -> (if fullmatch placeholder_re (strip s) then JNull
                    else JStr (strip s)) = JNull) /\
             (~ P -> (if fullmatch placeholder_re (strip s) then JNull
                      else JStr (strip s)) = JStr (strip s))).
  { intros P HP. destruct (fullmatch placeholder_re (strip s)).
    - split; [reflexivity|]. intros N. destruct N. now apply HP.
    - split; [|reflexivity]. intros Q. apply HP in Q. discriminate. }
  destruct (D _ (fullmatch_placeholder_strip s)) as [D1 D2].
  split; [|split; [|split]].
  - intros Hp. rewrite D1; [reflexivity|].
    now rewrite (strip_solid s (placeholder_tokens_solid s Hp)).
  - intros Hp. now rewrite D1.
  - intros Hp. now rewrite D2.
  - intros F Hp. apply fullmatch_placeholder_strip in Hp. congruence.
Qed.

(** The three names of the specification's examples. *)
Lemma null_if_placeholder_examples :
  _null_if_placeholder (JStr (py "[PATIENT]")) = Ok JNull /\
  _null_if_placeholder (JStr (py "[NAME] [NAME]")) = Ok JNull /\
  _null_if_placeholder (JStr (py "Jane Doe")) = Ok (JStr (py "Jane Doe")) /\
  _null_if_placeholder JNull = Ok JNull.
Proof. repeat split; vm_compute; reflexivity. Qed.

(** ** Medication and diagnosis entries *)

Lemma or_none_optional (e : dict) (k : str) :
  or_none (dict_get e k) = optional e k.
Proof.
  unfold or_none, py_or, optional, dict_get.
  now destruct (dict_lookup e k).
Qed.

Lemma title_capitalized (s : str) : _title s = capitalized s.
Proof. now destruct s. Qed.

(** Reading a required field either raises, or yields its trimmed text. *)
Lemma required_field_read (e : dict) (k : str) :
  (well_named k (JDict e) /\
   strip_of (py_or (dict_get e k) (JStr [])) = Ok (required_text e k)) \/
  (~ well_named k (JDict e) /\
   strip_of (py_or (dict_get e k) (JStr [])) = Err AttributeError).
Proof.
  unfold well_named, required_text, dict_get, py_or.
  destruct (dict_lookup e k) as [[|b|z|f|s|l|d]|]; simpl.
  - left. split; reflexivity.
  - destruct b; simpl; [right | left]; split; try reflexivity; discriminate.
  - destruct (z =? 0); simpl; [left | right]; split; try reflexivity; discriminate.
  - destruct f; simpl; try (right; split; [discriminate | reflexivity]).
    left. split; reflexivity.
  - left. split; [exact I|]. now destruct s.
  - destruct l; simpl; [left | right]; split; try reflexivity; discriminate.
  - destruct d; simpl; [left | right]; split; try reflexivity; discriminate.
  - left. split; reflexivity.
Qed.

Lemma clean_meds_step (m : json) (rest : list json) :
  (well_named (py "name") m /\
   clean_meds (m :: rest) =
     match kept_medication m with
     | Some r => tl <- clean_meds rest ;; Ok (r :: tl)
     | None => clean_meds rest
     end) \/
  (~ well_named (py "name") m /\ clean_meds (m :: rest) = Err AttributeError).
Proof.
  destruct m as [|b|z|f|s|l|e]; try (left; split; [exact I | reflexivity]).
  cbn [clean_meds kept_medication].
  destruct (required_field_read e (py "name")) as [[W R] | [W R]]; rewrite R;
    [left | right]; split; try assumption; cbn [bind]; [|reflexivity].
  destruct (required_text e (py "name")); [reflexivity|].
  unfold medication_record. now rewrite !or_none_optional.
Qed.

Lemma clean_diagnoses_step (d : json) (rest : list json) :
  (well_named (py "label") d /\
   clean_diagnoses (d :: rest) =
     match kept_diagnosis d with
     | Some r => tl <- clean_diagnoses rest ;; Ok (r :: tl)
     | None => clean_diagnoses rest
     end) \/
  (~ well_named (py "label") d /\ clean_diagnoses (d :: rest) = Err AttributeError).
Proof.
  destruct d as [|b|z|f|s|l|e]; try (left; split; [exact I | reflexivity]).
  cbn [clean_diagnoses kept_diagnosis].
  destruct (required_field_read e (py "label")) as [[W R] | [W R]]; rewrite R;
    [left | right]; split; try assumption; cbn [bind]; [|reflexivity].
  destruct (required_text e (py "label")) as [|c t] eqn:E; [reflexivity|].
  unfold diagnosis_record. now rewrite !or_none_optional, title_capitalized.
Qed.

(** The medication loop returns exactly when every object entry is well
    named, and then returns the kept entries in order. *)
Lemma clean_meds_returns (meds : list json) :
  Forall (well_named (py "name")) meds ->
  clean_meds meds = Ok (kept_medications meds).
Proof.
  induction 1 as [|m rest Hm _ IH]; [reflexivity|].
  destruct (clean_meds_step m rest) as [[_ ->] | [N _]]; [|contradiction].
  unfold kept_medications. cbn [filter_map].
  destruct (kept_medication m); [|exact IH].
  fold (kept_medications rest). now rewrite IH.
Qed.

Lemma clean_meds_spec (meds out : list json) :
  clean_meds meds = Ok out ->
  Forall (well_named (py "name")) meds /\ out = kept_medications meds.
Proof.
  revert out. induction meds as [|m rest IH]; intros out H.
  - injection H as <-. split; constructor.
  - destruct (clean_meds_step m rest) as [[W E] | [_ E]]; rewrite E in H;
      [|discriminate].
    unfold kept_medications. cbn [filter_map].
    destruct (kept_medication m) as [r|].
    + apply bind_ok in H as (tl & Htl & Eo). injection Eo as <-.
      destruct (IH tl Htl) as [F ->]. split; [now constructor | reflexivity].
    + destruct (IH out H) as [F ->]. split; [now constructor | reflexivity].
Qed.

Lemma clean_diagnoses_returns (dx : list json) :
  Forall (well_named (py "label")) dx ->
  clean_diagnoses dx = Ok (kept_diagnoses dx).
Proof.
  induction 1 as [|d rest Hd _ IH]; [reflexivity|].
  destruct (clean_diagnoses_step d rest) as [[_ ->] | [N _]]; [|contradiction].
  unfold kept_diagnoses. cbn [filter_map].
  destruct (kept_diagnosis d); [|exact IH].
  fold (kept_diagnoses rest). now rewrite IH.
Qed.

Lemma clean_diagnoses_spec (dx out : list json) :
  clean_diagnoses dx = Ok out ->
  Forall (well_named (py "label")) dx /\ out = kept_diagnoses dx.
Proof.
  revert out. induction dx as [|d rest IH]; intros out H.
  - injection H as <-. split; constructor.
  - destruct (clean_diagnoses_step d rest) as [[W E] | [_ E]]; rewrite E in H;
      [|discriminate].
    unfold kept_diagnoses. cbn [filter_map].
    destruct (kept_diagnosis d) as [r|].
    + apply bind_ok in H as (tl & Htl & Eo). injection Eo as <-.
      destruct (IH tl Htl) as [F ->]. split; [now constructor | reflexivity].
    + destruct (IH out H) as [F ->]. split; [now constructor | reflexivity].
Qed.

Lemma filter_map_in {A B} (f : A -> option B) (l : list A) (y : B) :
  In y (filter_map f l) -> exists x, In x l /\ f x = Some y.
Proof.
  induction l as [|x l IH]; simpl; [contradiction|].
  destruct (f x) as [z|] eqn:E.
  - intros [<- | H]; [now exists x; auto|].
    destruct (IH H) as (x' & Hx & Hf). exists x'. auto.
  - intros H. destruct (IH H) as (x' & Hx & Hf). exists x'. auto.
Qed.

Lemma stored_list_read (v : list json) :
  py_iter (py_or (JList v) (JList [])) = Ok v.
Proof. now destruct v. Qed.

Lemma optional_absent (e : dict) (k : str) :
  dict_lookup e k = None -> optional e k = JNull.
Proof. unfold optional. now intros ->. Qed.

Lemma optional_present (e : dict) (k : str) (v : json) :
  dict_lookup e k = Some v -> truthy v = true -> optional e k = v.
Proof. unfold optional. now intros -> ->. Qed.

Lemma required_text_some (e : dict) (k : str) (c : codepoint) (t : str) :
  required_text e k = c :: t ->
  exists n, dict_lookup e k = Some (JStr n) /\ strip n = c :: t.
Proof.
  unfold required_text.
  destruct (dict_lookup e k) as [[| | | |n| |]|]; try discriminate.
  intros H. now exists n.
Qed.

(** C3.  Whenever [postprocess] returns on a mapping whose
    [medications_taken] is a list: the stored list holds, in order, one record
    per entry that is an object with a name left after trimming; an entry
    whose name is missing or empty after trimming (or that is no object) gives
    no record; each record has exactly the six fields [name], [dose], [route],
    [frequency], [duration], [reason], its name being [str.lower] of the
    trimmed name and every absent optional field null. *)
Theorem medications_normalized (data data' : dict) (meds : list json) :
  postprocess (JDict data) = Ok (JDict data') ->
  dict_lookup data (py "medications_taken") = Some (JList meds) ->
  dict_lookup data' (py "medications_taken") = Some (JList (kept_medications meds)) /\
  (forall m, In m meds ->
     match m with JDict e => required_text e (py "name") = [] | _ => True end ->
     kept_medication m = None) /\
  (forall r, In r (kept_medications meds) ->
     exists e n, In (JDict e) meds /\
       dict_lookup e (py "name") = Some (JStr n) /\ strip n <> [] /\
       r = JDict [ (py "name", JStr (str_lower (strip n)));
                   (py "dose", optional e (py "dose"));
                   (py "route", optional e (py "route"));
                   (py "frequency", optional e (py "frequency"));
                   (py "duration", optional e (py "duration"));
                   (py "reason", optional e (py "reason")) ]) /\
  (forall e k, dict_lookup e k = None -> optional e k = JNull).
Proof.
  intros H Hm. simpl in H. apply bind_ok in H as (d & Hd & E). injection E as <-.
  apply postprocess_dict_ok in Hd
    as (name & mi & mi' & ms & cleaned & ph & dx & out
        & _ & _ & _ & Hms & Hc & _ & _ & _ & ->).
  unfold dict_get in Hms. rewrite Hm, stored_list_read in Hms.
  injection Hms as <-. apply clean_meds_spec in Hc as [_ ->].
  split; [|split; [|split]].
  - unfold store_fields. rewrite !dict_lookup_set_other by reflexivity.
    apply dict_lookup_set_same.
  - intros m _ Hdrop. destruct m as [| | | | | |e]; try reflexivity.
    simpl. now rewrite Hdrop.
  - intros r Hr. apply filter_map_in in Hr as (m & Hin & Hk).
    destruct m as [| | | | | |e]; try discriminate. simpl in Hk.
    destruct (required_text e (py "name")) as [|c t] eqn:Et; [discriminate|].
    apply required_text_some in Et as (n & Hn & Hs).
    injection Hk as <-. exists e, n. rewrite Hs.
    repeat split; try assumption. discriminate.
  - apply optional_absent.
Qed.

(** C8, amended.  Whenever [postprocess] returns on a mapping whose
    [diagnoses] is a list: the stored list holds, in order, one record per
    entry that is an object with a label left after trimming; an entry whose
    label is missing or empty after trimming gives no record; each record has
    exactly the fields [label], [code], [priority], the label being the
    trimmed label with [str.upper] of its first character in place of that
    character and the rest unchanged; [code] and [priority] are null when
    absent or when their value counts as false, and any other value, whether
    or not it is one of high, medium and low, is stored unchanged. *)
Theorem diagnoses_normalized (data data' : dict) (dx : list json) :
  postprocess (JDict data) = Ok (JDict data') ->
  dict_lookup data (py "diagnoses") = Some (JList dx) ->
  dict_lookup data' (py "diagnoses") = Some (JList (kept_diagnoses dx)) /\
  (forall d, In d dx ->
     match d with JDict e => required_text e (py "label") = [] | _ => True end ->
     kept_diagnosis d = None) /\
  (forall r, In r (kept_diagnoses dx) ->
     exists e n c t, In (JDict e) dx /\
       dict_lookup e (py "label") = Some (JStr n) /\ strip n = c :: t /\
       r = JDict [ (py "label", JStr (str_upper [c] ++ t));
                   (py "code", optional e (py "code"));
                   (py "priority", optional e (py "priority")) ]) /\
  (forall e k, dict_lookup e k = None -> optional e k = JNull) /\
  (forall e k v, dict_lookup e k = Some v -> truthy v = false -> optional e k = JNull) /\
  (forall e k v, dict_lookup e k = Some v -> truthy v = true -> optional e k = v).
Proof.
  intros H Hm. simpl in H. apply bind_ok in H as (d & Hd & E). injection E as <-.
  apply postprocess_dict_ok in Hd
    as (name & mi & mi' & ms & cleaned & ph & ds & out
        & _ & _ & _ & _ & _ & _ & Hds & Hc & ->).
  unfold dict_get in Hds. rewrite Hm, stored_list_read in Hds.
  injection Hds as <-. apply clean_diagnoses_spec in Hc as [_ ->].
  split; [|split; [|split; [|split; [|split]]]].
  - unfold store_fields. apply dict_lookup_set_same.
  - intros m _ Hdrop. destruct m as [| | | | | |e]; try reflexivity.
    simpl. now rewrite Hdrop.
  - intros r Hr. apply filter_map_in in Hr as (m & Hin & Hk).
    destruct m as [| | | | | |e]; try discriminate. simpl in Hk.
    destruct (required_text e (py "label")) as [|c t] eqn:Et; [discriminate|].
    apply required_text_some in Et as (n & Hn & Hs).
    injection Hk as <-. now exists e, n, c, t.
  - apply optional_absent.
  - intros e k v Hv Hf. unfold optional. now rewrite Hv, Hf.
  - apply optional_present.
Qed.

(** ** Plain-text extraction *)

Ltac decide_tests :=
  repeat match goal with
    | |- context [?a <? ?b] =>
        (replace (a <? b) with true by (symmetry; apply Z.ltb_lt; lia))
        || (replace (a <? b) with false by (symmetry; apply Z.ltb_ge; lia))
    | |- context [?a <=? ?b] =>
        (replace (a <=? b) with true by (symmetry; apply Z.leb_le; lia))
        || (replace (a <=? b) with false by (symmetry; apply Z.leb_gt; lia))
    | |- context [?a =? ?b] =>
        (replace (a =? b) with true by (symmetry; apply Z.eqb_eq; lia))
        || (replace (a =? b) with false by (symmetry; apply Z.eqb_neq; lia))
    end;
  cbn [andb orb negb].

Lemma decode_ascii (b : byte) (rest : list byte) :
  b < 128 -> utf8_decode_ignore (b :: rest) = b :: utf8_decode_ignore rest.
Proof. intros H. cbn [utf8_decode_ignore]. decide_tests. reflexivity. Qed.


Lemma decode_two (b1 b2 : byte) (rest : list byte) :
  194 <= b1 < 224 -> 128 <= b2 < 192 ->
  utf8_decode_ignore (b1 :: b2 :: rest)
  = (b1 * 64 + b2 - (192 * 64 + 128)) :: utf8_decode_ignore rest.
Proof.
  intros H1 H2. cbn [utf8_decode_ignore]. unfold is_continuation.
  decide_tests. reflexivity.
Qed.

Lemma decode_three (b1 b2 b3 : byte) (rest : list byte) :
  224 <= b1 < 240 -> 128 <= b2 < 192 -> 128 <= b3 < 192 ->
  (b1 = 224 -> 160 <= b2) -> (b1 = 237 -> b2 < 160) ->
  utf8_decode_ignore (b1 :: b2 :: b3 :: rest)
  = (b1 * 4096 + b2 * 64 + b3 - (224 * 4096 + 128 * 64 + 128))
      :: utf8_decode_ignore rest.
Proof.
  intros H1 H2 H3 Lo Hi. cbn [utf8_decode_ignore]. unfold is_continuation.
  destruct (Z.ltb_spec b2 160); decide_tests; reflexivity.
Qed.

Lemma decode_four (b1 b2 b3 b4 : byte) (rest : list byte) :
  240 <= b1 < 245 -> 128 <= b2 < 192 -> 128 <= b3 < 192 -> 128 <= b4 < 192 ->
  (b1 = 240 -> 144 <= b2) -> (b1 = 244 -> b2 < 144) ->
  utf8_decode_ignore (b1 :: b2 :: b3 :: b4 :: rest)
  = (b1 * 262144 + b2 * 4096 + b3 * 64 + b4
     - (240 * 262144 + 128 * 4096 + 128 * 64 + 128))
      :: utf8_decode_ignore rest.
Proof.
  intros H1 H2 H3 H4 Lo Hi. cbn [utf8_decode_ignore]. unfold is_continuation.
  destruct (Z.ltb_spec b2 144); decide_tests; reflexivity.
Qed.

Lemma decode_encode_cp (c : codepoint) (rest : list byte) :
  scalar_value c ->
  utf8_decode_ignore (utf8_encode_cp c ++ rest) = c :: utf8_decode_ignore rest.
Proof.
  clear str_upper str_lower.
  intros [[Lo Hi] NS]. unfold utf8_encode_cp.
  destruct (Z.ltb_spec c 128); [now apply decode_ascii|].
  destruct (Z.ltb_spec c 2048); [|destruct (Z.ltb_spec c 65536)]; cbn [app].
  - rewrite decode_two; [f_equal|..]; Z.div_mod_to_equations; lia.
  - rewrite decode_three; [f_equal|..]; Z.div_mod_to_equations; lia.
  - rewrite decode_four; [f_equal|..]; Z.div_mod_to_equations; lia.
Qed.

Lemma decode_encode_app (text : str) (rest : list byte) :
  Forall scalar_value text ->
  utf8_decode_ignore (utf8_encode text ++ rest) = text ++ utf8_decode_ignore rest.
Proof.
  induction 1 as [|c text Hc _ IH]; [reflexivity|].
  unfold utf8_encode in *. cbn [flat_map]. rewrite <- app_assoc.
  rewrite decode_encode_cp by assumption. cbn [app]. now rewrite IH.
Qed.

Lemma decode_encode (text : str) :
  Forall scalar_value text -> utf8_decode_ignore (utf8_encode text) = text.
Proof.
  intros H. rewrite <- (app_nil_r (utf8_encode text)).
  rewrite decode_encode_app by assumption. apply app_nil_r.
Qed.



(** ** Code fences *)

Lemma rstrip_after (a x : str) : rstrip a = a -> rstrip (a ++ x) = a ++ rstrip x.
Proof.
  intros Ha. destruct (blank x) eqn:Hx.
  - rewrite rstrip_app_blank, (rstrip_blank x), app_nil_r by assumption.
    exact Ha.
  - now apply rstrip_app_solid.
Qed.

Lemma strip_rstrip (s : str) : strip (rstrip s) = strip s.
Proof. unfold strip. now rewrite lstrip_rstrip, rstrip_idem. Qed.

Lemma strip_char_fenced (j : str) :
  strip_char 96 (fenced j) = py "json" ++ 10 :: j ++ [10].
Proof.
  unfold strip_char.
  change (lstrip_char 96 (fenced j))
    with ((py "json" ++ 10 :: j) ++ [10; 96; 96; 96]).
  rewrite rev_app_distr.
  change (lstrip_char 96 (rev [10; 96; 96; 96] ++ rev (py "json" ++ 10 :: j)))
    with (rev [10] ++ rev (py "json" ++ 10 :: j)).
  rewrite <- rev_app_distr, rev_involutive, <- app_assoc. reflexivity.
Qed.

(** Fence stripping leaves the JSON text, trimmed. *)
Lemma strip_fences_fenced (j : str) : strip_fences (fenced j) = strip j.
Proof.
  unfold strip_fences.
  assert (S : strip (fenced j) = fenced j).
  { apply strip_solid. split.
    - now exists 96, (tl (fenced j)).
    - exists (py "```json" ++ [10] ++ j ++ [10] ++ py "``"), 96.
      split; [|reflexivity]. unfold fenced.
      rewrite <- !app_assoc. reflexivity. }
  rewrite S.
  change (startswith (fenced j) (py "```")) with true. cbv iota.
  rewrite strip_char_fenced.
  assert (T : strip (py "json" ++ 10 :: j ++ [10])
              = py "json" ++ rstrip (10 :: j ++ [10])).
  { unfold strip. change (lstrip (py "json" ++ 10 :: j ++ [10]))
      with (py "json" ++ 10 :: j ++ [10]).
    now apply rstrip_after. }
  rewrite T.
  change (startswith (lower (py "json" ++ rstrip (10 :: j ++ [10]))) (py "json"))
    with true. cbv iota.
  change (skipn 4 (py "json" ++ rstrip (10 :: j ++ [10])))
    with (rstrip (10 :: j ++ [10])).
  rewrite strip_rstrip. now apply (strip_padded [10] j [10]).
Qed.

(** C5.  Whatever the decoder, a reply made of a JSON text inside a code
    fence tagged [json] is decoded from the same characters as the text alone:
    the decoder is given the text with its surrounding whitespace removed, and
    so is it when the reply is the unwrapped text, which never begins with a
    fence. *)
Theorem fenced_reply_parses_as_unwrapped
    (json_loads : str -> result json) (j : str) :
  parse_reply json_loads (fenced j) = json_loads (strip j) /\
  (startswith (strip j) (py "```") = false ->
   parse_reply json_loads (fenced j) = parse_reply json_loads j).
Proof.
  unfold parse_reply. rewrite strip_fences_fenced. split; [reflexivity|].
  intros H. unfold strip_fences. now rewrite H.
Qed.

Lemma fenced_reply_parses_as_unwrapped_witness :
  parse_reply decode_one_list (fenced (py " [1] ")) = Ok (JList [JInt 1]) /\
  parse_reply decode_one_list (py " [1] ") = Ok (JList [JInt 1]).
Proof.
  destruct (fenced_reply_parses_as_unwrapped decode_one_list (py " [1] "))
    as [Direct Same].
  split.
  - rewrite Direct. vm_compute. reflexivity.
  - rewrite <- Same; [rewrite Direct|]; vm_compute; reflexivity.
Defined.

(** ** A second application of the normaliser *)

Lemma isspace_upper_cp (c : codepoint) :
  isspace c = false -> isspace (upper_cp c) = false.
Proof.
  unfold upper_cp. destruct ((97 <=? c) && (c <=? 122)) eqn:E; [|trivial].
  intros _. apply andb_true_iff in E as [L U].
  apply Z.leb_le in L, U. unfold isspace. decide_tests. reflexivity.
Qed.

Lemma isspace_lower_cp (c : codepoint) :
  isspace c = false -> isspace (lower_cp c) = false.
Proof.
  unfold lower_cp. destruct ((65 <=? c) && (c <=? 90)) eqn:E; [|trivial].
  intros _. apply andb_true_iff in E as [L U].
  apply Z.leb_le in L, U. unfold isspace. decide_tests. reflexivity.
Qed.

Lemma upper_cp_idem (c : codepoint) : upper_cp (upper_cp c) = upper_cp c.
Proof.
  unfold upper_cp. destruct ((97 <=? c) && (c <=? 122)) eqn:E.
  - apply andb_true_iff in E as [L U]. apply Z.leb_le in L, U.
    decide_tests. reflexivity.
  - now rewrite E.
Qed.

Lemma lower_cp_idem (c : codepoint) : lower_cp (lower_cp c) = lower_cp c.
Proof.
  unfold lower_cp. destruct ((65 <=? c) && (c <=? 90)) eqn:E.
  - apply andb_true_iff in E as [L U]. apply Z.leb_le in L, U.
    decide_tests. reflexivity.
  - now rewrite E.
Qed.

Lemma solid_nonempty (s : str) : solid s -> s <> [].
Proof. intros [(c & t & -> & _) _]. discriminate. Qed.

Lemma strip_cons_solid (s : str) (c : codepoint) (t : str) :
  strip s = c :: t -> solid (c :: t).
Proof.
  intros E. destruct (strip_shape s) as [N | S]; rewrite E in *;
    [discriminate | assumption].
Qed.

Lemma required_text_solid (e : dict) (k : str) (c : codepoint) (t : str) :
  required_text e k = c :: t -> solid (c :: t).
Proof.
  intros H. apply required_text_some in H as (n & _ & Hs).
  now apply (strip_cons_solid n).
Qed.

Lemma filter_map_fixed {A} (f : A -> option A) (l : list A) :
  (forall x, In x l -> f x = Some x) -> filter_map f l = l.
Proof.
  induction l as [|x l IH]; intros H; simpl; [reflexivity|].
  rewrite (H x) by now left. rewrite IH; [reflexivity|].
  intros y Hy. apply H. now right.
Qed.

Lemma optional_settled (v : json) :
  (if truthy (if truthy v then v else JNull)
   then (if truthy v then v else JNull) else JNull)
  = (if truthy v then v else JNull).
Proof. destruct (truthy v) eqn:E; [now rewrite E | reflexivity]. Qed.

Lemma optional_of_record (e : dict) (k : str) :
  (if truthy (optional e k) then optional e k else JNull) = optional e k.
Proof.
  unfold optional. destruct (dict_lookup e k) as [v|]; [|reflexivity].
  apply optional_settled.
Qed.

Lemma sub_ws_runs_idem (b : bool) (s : str) :
  sub_ws_runs b (sub_ws_runs b s) = sub_ws_runs b s.
Proof.
  revert b. induction s as [|c s IH]; intros b; simpl; [reflexivity|].
  destruct (isspace c) eqn:Hc.
  - destruct b; [apply IH|]. simpl.
    change (isspace 32) with true. cbv iota. now rewrite IH.
  - simpl. rewrite Hc. now rewrite IH.
Qed.

Lemma sub_ws_runs_last (b : bool) (t : str) (d : codepoint) :
  isspace d = false -> sub_ws_runs b (t ++ [d]) = sub_ws_runs b t ++ [d].
Proof.
  intros Hd. revert b. induction t as [|c t IH]; intros b; simpl.
  - now rewrite Hd.
  - destruct (isspace c); [destruct b|]; now rewrite IH.
Qed.

Lemma solid_sub_ws_runs (s : str) : solid s -> solid (sub_ws_runs false s).
Proof.
  intros [(c & t & E1 & Hc) (u & d & E2 & Hd)]. split.
  - exists c, (sub_ws_runs false t). rewrite E1. simpl. now rewrite Hc.
  - exists (sub_ws_runs false u), d. rewrite E2.
    now rewrite sub_ws_runs_last.
Qed.

Lemma collapse_history_fixed (v : json) (ph : str) :
  collapse_history v = Ok ph -> collapse_history (JStr ph) = Ok ph.
Proof.
  unfold collapse_history. intros H. apply bind_ok in H as (t & Ht & H).
  injection H as <-.
  assert (St : t = [] \/ solid t).
  { destruct (py_or v (JStr [])) as [| | | |s| |]; try discriminate.
    injection Ht as <-. apply strip_shape. }
  destruct St as [-> | St]; [reflexivity|].
  pose proof (solid_sub_ws_runs t St) as S.
  unfold py_or.
  destruct (sub_ws_runs false t) as [|c r] eqn:E;
    [now apply solid_nonempty in S|].
  cbn [truthy str_eqb negb strip_of bind]. rewrite (strip_solid _ S).
  rewrite <- E. now rewrite sub_ws_runs_idem.
Qed.

Lemma null_if_placeholder_fixed (v name : json) :
  _null_if_placeholder v = Ok name ->
  (forall s, v = JStr s -> s <> [] -> blank s = false) ->
  _null_if_placeholder name = Ok name.
Proof.
  intros H Hb. destruct v as [|b|z|f|s|l|d].
  - injection H as <-. reflexivity.
  - destruct b; [discriminate|]. injection H as <-. reflexivity.
  - unfold _null_if_placeholder in H. simpl in H. destruct (z =? 0); simpl in H;
      [|discriminate]. injection H as <-. reflexivity.
  - destruct f; try discriminate. injection H as <-. reflexivity.
  - destruct s as [|c s]; [injection H as <-; reflexivity|].
    rewrite null_if_placeholder_str in H by discriminate.
    destruct (fullmatch placeholder_re (strip (c :: s))) eqn:F;
      injection H as <-; [reflexivity|].
    assert (NE : strip (c :: s) <> []).
    { intros N. apply strip_nil_blank in N.
      rewrite (Hb (c :: s)) in N by (reflexivity || discriminate).
      discriminate. }
    rewrite null_if_placeholder_str by assumption.
    now rewrite strip_idem, F.
  - destruct l; [|discriminate]. injection H as <-. reflexivity.
  - destruct d; [|discriminate]. injection H as <-. reflexivity.
Qed.

Lemma store_fields_lookups (data : dict) name mi cleaned ph out :
  let data' := store_fields data name mi cleaned ph out in
  dict_lookup data' (py "name") = Some name /\
  dict_lookup data' (py "mental_illnesses") = Some (JList mi) /\
  dict_lookup data' (py "medications_taken") = Some (JList cleaned) /\
  dict_lookup data' (py "past_history") = Some (JStr ph) /\
  dict_lookup data' (py "diagnoses") = Some (JList out).
Proof.
  unfold store_fields. repeat split;
    repeat (rewrite dict_lookup_set_other by reflexivity);
    apply dict_lookup_set_same.
Qed.

Lemma store_fields_again (data' : dict) name mi cleaned ph out :
  dict_lookup data' (py "name") = Some name ->
  dict_lookup data' (py "mental_illnesses") = Some (JList mi) ->
  dict_lookup data' (py "medications_taken") = Some (JList cleaned) ->
  dict_lookup data' (py "past_history") = Some (JStr ph) ->
  dict_lookup data' (py "diagnoses") = Some (JList out) ->
  store_fields data' name mi cleaned ph out = data'.
Proof.
  intros H1 H2 H3 H4 H5. unfold store_fields.
  now rewrite (dict_set_unchanged _ _ _ H1), (dict_set_unchanged _ _ _ H2),
    (dict_set_unchanged _ _ _ H3), (dict_set_unchanged _ _ _ H4),
    (dict_set_unchanged _ _ _ H5).
Qed.

Lemma ascii_lower_idem (s : str) : lower (lower s) = lower s.
Proof.
  unfold lower. rewrite map_map. apply map_ext. apply lower_cp_idem.
Qed.

Lemma ascii_lower_solid (s : str) : solid s -> solid (lower s).
Proof.
  intros [(c & t & -> & Hc) (u & d & E & Hd)]. split.
  - exists (lower_cp c), (lower t). split; [reflexivity|].
    now apply isspace_lower_cp.
  - exists (lower u), (lower_cp d). rewrite E. unfold lower.
    rewrite map_app. split; [reflexivity | now apply isspace_lower_cp].
Qed.

Lemma ascii_upper_solid (c : codepoint) :
  isspace c = false -> solid (upper [c]).
Proof.
  intros Hc. split.
  - exists (upper_cp c), []. split; [reflexivity | now apply isspace_upper_cp].
  - exists [], (upper_cp c). split; [reflexivity | now apply isspace_upper_cp].
Qed.

Lemma ascii_upper_head_fixed (c d : codepoint) (ds : str) :
  upper [c] = d :: ds -> upper [d] = [d].
Proof.
  intros H. injection H as <- _. unfold upper. simpl. now rewrite upper_cp_idem.
Qed.

Section SecondApplication.

(** What the proofs below use of [str.upper] and [str.lower]: the upper
    case of a character that is not whitespace is not empty and neither begins
    nor ends with whitespace, and its first character is its own upper case;
    lower-casing keeps a text free of surrounding whitespace and, done twice,
    gives what it gives once. *)
Hypothesis upper_solid : forall c, isspace c = false -> solid (str_upper [c]).
Hypothesis upper_head_fixed :
  forall c d ds, str_upper [c] = d :: ds -> str_upper [d] = [d].
Hypothesis lower_solid : forall s, solid s -> solid (str_lower s).
Hypothesis lower_idem : forall s, str_lower (str_lower s) = str_lower s.

Lemma solid_capitalized (s : str) : solid s -> solid (capitalized s).
Proof.
  intros [(c & t & -> & Hc) (u & d & E & Hd)].
  destruct (upper_solid c Hc) as [(c' & t' & E1 & Hc') (u' & d' & E2 & Hd')].
  cbn [capitalized]. split.
  - exists c', (t' ++ t). rewrite E1. now split.
  - destruct u as [|c0 u0]; simpl in E; injection E as <- ->.
    + exists u', d'. rewrite app_nil_r. now split.
    + exists (str_upper [c] ++ u0), d. rewrite <- app_assoc. now split.
Qed.

Lemma capitalized_idem_head (c : codepoint) (t : str) :
  isspace c = false ->
  capitalized (capitalized (c :: t)) = capitalized (c :: t).
Proof.
  intros Hc. destruct (upper_solid c Hc) as [(c' & t' & E1 & _) _].
  cbn [capitalized]. rewrite E1. cbn [app capitalized].
  now rewrite (upper_head_fixed c c' t' E1).
Qed.

Lemma capitalized_idem (s : str) :
  solid s -> capitalized (capitalized s) = capitalized s.
Proof.
  intros [(c & t & -> & Hc) _]. now apply capitalized_idem_head.
Qed.

(** A stored medication record is well named and is its own record. *)
Lemma medication_record_fixed (e : dict) (n : str) :
  solid n ->
  well_named (py "name") (medication_record e n) /\
  kept_medication (medication_record e n) = Some (medication_record e n).
Proof.
  intros Hn. split; [exact I|].
  pose proof (strip_solid _ (lower_solid n Hn)) as S.
  pose proof (solid_nonempty _ (lower_solid n Hn)) as NE.
  unfold kept_medication, medication_record at 1.
  change (required_text _ (py "name")) with (strip (str_lower n)). rewrite S.
  destruct (str_lower n) as [|c t] eqn:E; [contradiction|]. rewrite <- E.
  unfold medication_record at 1. rewrite lower_idem.
  unfold medication_record.
  change (optional _ (py "dose")) with
    (if truthy (optional e (py "dose")) then optional e (py "dose") else JNull) at 1.
  change (optional _ (py "route")) with
    (if truthy (optional e (py "route")) then optional e (py "route") else JNull) at 1.
  change (optional _ (py "frequency")) with
    (if truthy (optional e (py "frequency")) then optional e (py "frequency") else JNull) at 1.
  change (optional _ (py "duration")) with
    (if truthy (optional e (py "duration")) then optional e (py "duration") else JNull) at 1.
  change (optional _ (py "reason")) with
    (if truthy (optional e (py "reason")) then optional e (py "reason") else JNull) at 1.
  now rewrite !optional_of_record.
Qed.

Lemma diagnosis_record_fixed (e : dict) (n : str) :
  solid n ->
  well_named (py "label") (diagnosis_record e n) /\
  kept_diagnosis (diagnosis_record e n) = Some (diagnosis_record e n).
Proof.
  intros Hn. split; [exact I|].
  pose proof (strip_solid _ (solid_capitalized n Hn)) as S.
  pose proof (solid_nonempty _ (solid_capitalized n Hn)) as NE.
  unfold kept_diagnosis, diagnosis_record at 1.
  change (required_text _ (py "label")) with (strip (capitalized n)). rewrite S.
  destruct (capitalized n) as [|c t] eqn:E; [contradiction|]. rewrite <- E.
  unfold diagnosis_record at 1. rewrite (capitalized_idem n Hn).
  unfold diagnosis_record.
  change (optional _ (py "code")) with
    (if truthy (optional e (py "code")) then optional e (py "code") else JNull) at 1.
  change (optional _ (py "priority")) with
    (if truthy (optional e (py "priority")) then optional e (py "priority") else JNull) at 1.
  now rewrite !optional_of_record.
Qed.

Lemma kept_medications_fixed (meds : list json) :
  clean_meds (kept_medications meds) = Ok (kept_medications meds).
Proof.
  assert (F : forall r, In r (kept_medications meds) ->
                well_named (py "name") r /\ kept_medication r = Some r).
  { intros r Hr. apply filter_map_in in Hr as (m & _ & Hk).
    destruct m as [| | | | | |e]; try discriminate. simpl in Hk.
    destruct (required_text e (py "name")) as [|c t] eqn:Et; [discriminate|].
    injection Hk as <-. apply medication_record_fixed.
    now apply (required_text_solid e (py "name")). }
  rewrite clean_meds_returns.
  - f_equal. apply filter_map_fixed. intros r Hr. now apply F.
  - apply Forall_forall. intros r Hr. now apply F.
Qed.

Lemma kept_diagnoses_fixed (dx : list json) :
  clean_diagnoses (kept_diagnoses dx) = Ok (kept_diagnoses dx).
Proof.
  assert (F : forall r, In r (kept_diagnoses dx) ->
                well_named (py "label") r /\ kept_diagnosis r = Some r).
  { intros r Hr. apply filter_map_in in Hr as (m & _ & Hk).
    destruct m as [| | | | | |e]; try discriminate. simpl in Hk.
    destruct (required_text e (py "label")) as [|c t] eqn:Et; [discriminate|].
    injection Hk as <-. apply diagnosis_record_fixed.
    now apply (required_text_solid e (py "label")). }
  rewrite clean_diagnoses_returns.
  - f_equal. apply filter_map_fixed. intros r Hr. now apply F.
  - apply Forall_forall. intros r Hr. now apply F.
Qed.

(** A tidied illness is a capitalised solid string, which tidying keeps. *)
Lemma tidy_illnesses_fixed (mi mi' : list json) :
  tidy_illnesses mi = Ok mi' -> tidy_illnesses mi' = Ok mi'.
Proof.
  revert mi'. induction mi as [|x rest IH]; intros mi' H.
  - injection H as <-. reflexivity.
  - simpl in H. destruct (str_strip_truthy x) eqn:T; [|now apply IH].
    apply bind_ok in H as (u & Hu & H).
    apply bind_ok in H as (tl & Htl & H). injection H as <-.
    destruct x as [| | | |s| |]; try discriminate. simpl in Hu, T.
    injection Hu as <-.
    destruct (strip s) as [|c t] eqn:Es; [discriminate|].
    pose proof (strip_cons_solid s c t Es) as S0.
    pose proof (solid_capitalized _ S0) as S.
    rewrite title_capitalized.
    cbn [tidy_illnesses str_strip_truthy strip_of].
    rewrite (strip_solid _ S).
    destruct (capitalized (c :: t)) as [|c' t'] eqn:Ec;
      [now apply solid_nonempty in S|].
    rewrite <- Ec. cbn [bind]. rewrite (IH tl Htl). cbn [bind].
    now rewrite title_capitalized, (capitalized_idem _ S0).
Qed.


(** C10, amended.  Whenever [postprocess] returns on a mapping whose name
    is not a non-empty string made of whitespace only, applying
    [postprocess] to the result returns that same result.  (The four
    hypotheses are facts of [str.upper] and [str.lower].) *)
Theorem postprocess_idempotent (data data' : dict) :
  postprocess (JDict data) = Ok (JDict data') ->
  (forall s, dict_lookup data (py "name") = Some (JStr s) ->
             s <> [] -> blank s = false) ->
  postprocess (JDict data') = Ok (JDict data').
Proof.
  intros H Hname. simpl in H. apply bind_ok in H as (d & Hd & E).
  injection E as <-.
  apply postprocess_dict_ok in Hd
    as (name & mi & mi' & meds & cleaned & ph & dx & out
        & Hn & _ & Hmi & _ & Hc & Hph & _ & Ho & ->).
  apply clean_meds_spec in Hc as [_ ->].
  apply clean_diagnoses_spec in Ho as [_ ->].
  set (data' := store_fields data name mi' (kept_medications meds) ph
                  (kept_diagnoses dx)).
  destruct (store_fields_lookups data name mi' (kept_medications meds) ph
              (kept_diagnoses dx)) as (L1 & L2 & L3 & L4 & L5).
  fold data' in L1, L2, L3, L4, L5.
  cbn [postprocess]. rewrite postprocess_dict_reads. unfold dict_get.
  rewrite L1, L2, L3, L4, L5.
  rewrite (null_if_placeholder_fixed (dict_get data (py "name")) name Hn).
  - cbn [bind]. rewrite stored_list_read. cbn [bind].
    rewrite (tidy_illnesses_fixed mi mi' Hmi). cbn [bind].
    rewrite stored_list_read. cbn [bind].
    rewrite kept_medications_fixed. cbn [bind].
    rewrite (collapse_history_fixed _ ph Hph). cbn [bind].
    rewrite stored_list_read. cbn [bind].
    rewrite kept_diagnoses_fixed. cbn [bind].
    now rewrite store_fields_again.
  - intros s Hs. apply Hname. unfold dict_get in Hs.
    destruct (dict_lookup data (py "name")) as [v|]; [now subst v | discriminate].
Qed.

End SecondApplication.

(** ** The normaliser returns on well-formed replies *)

Lemma text_or_nothing_placeholder (v : json) :
  text_or_nothing v -> exists name, _null_if_placeholder v = Ok name.
Proof.
  unfold _null_if_placeholder. destruct v as [|b|z|f|s|l|d]; simpl; intros H;
    try (rewrite H; simpl; now eexists).
  - now eexists.
  - destruct (negb (negb (str_eqb s []))); [now eexists|].
    destruct (fullmatch placeholder_re (strip s)); now eexists.
Qed.

Lemma text_or_nothing_history (v : json) :
  text_or_nothing v -> exists ph, collapse_history v = Ok ph.
Proof.
  unfold collapse_history, py_or. destruct v as [|b|z|f|s|l|d]; simpl; intros H;
    try (rewrite H; simpl; now eexists).
  - now eexists.
  - destruct (negb (str_eqb s [])); simpl; now eexists.
Qed.

Lemma tidy_illnesses_returns (mi : list json) :
  Forall is_text mi -> exists mi', tidy_illnesses mi = Ok mi'.
Proof.
  induction 1 as [|x rest Hx _ (tl & IH)]; [now exists []|].
  destruct x as [| | | |s| |]; try contradiction. simpl.
  destruct (strip s); [now exists tl|].
  rewrite IH. simpl. now eexists.
Qed.

Lemma postprocess_returns (data : dict) :
  well_formed_reply data ->
  exists data', postprocess (JDict data) = Ok (JDict data').
Proof.
  intros (Hn & Hp & (mi & Hmi & Fmi) & (meds & Hmeds & Fmeds) & (dx & Hdx & Fdx)).
  destruct (text_or_nothing_placeholder _ Hn) as (name & En).
  destruct (text_or_nothing_history _ Hp) as (ph & Ep).
  destruct (tidy_illnesses_returns mi Fmi) as (mi' & Et).
  cbn [postprocess]. rewrite postprocess_dict_reads.
  rewrite En, Hmi. cbn [bind]. rewrite Et, Hmeds. cbn [bind].
  rewrite (clean_meds_returns meds Fmeds), Ep, Hdx. cbn [bind].
  rewrite (clean_diagnoses_returns dx Fdx). cbn [bind]. now eexists.
Qed.

(** * Further properties of the code *)

(** ** When the normaliser raises *)

Lemma placeholder_text_or_nothing (v name : json) :
  _null_if_placeholder v = Ok name -> text_or_nothing v.
Proof.
  unfold _null_if_placeholder.
  destruct v as [|b|z|f|s|l|d]; simpl; try reflexivity; try exact (fun _ => I).
  - destruct b; [discriminate | reflexivity].
  - destruct (z =? 0); [reflexivity | discriminate].
  - destruct f; try discriminate; reflexivity.
  - destruct l; [reflexivity | discriminate].
  - destruct d; [reflexivity | discriminate].
Qed.

Lemma history_text_or_nothing (v : json) (ph : str) :
  collapse_history v = Ok ph -> text_or_nothing v.
Proof.
  unfold collapse_history, py_or.
  destruct v as [|b|z|f|s|l|d]; simpl; try reflexivity; try exact (fun _ => I).
  - destruct b; [discriminate | reflexivity].
  - destruct (z =? 0); [reflexivity | discriminate].
  - destruct f; try discriminate; reflexivity.
  - destruct l; [reflexivity | discriminate].
  - destruct d; [reflexivity | discriminate].
Qed.

Lemma tidy_illnesses_spec (mi out : list json) :
  tidy_illnesses mi = Ok out ->
  Forall is_text mi /\ out = filter_map kept_illness mi.
Proof.
  revert out. induction mi as [|x rest IH]; intros out H.
  - injection H as <-. split; constructor.
  - destruct x as [| | | |s| |]; try discriminate.
    cbn [tidy_illnesses str_strip_truthy strip_of filter_map kept_illness] in *.
    destruct (strip s) as [|c t] eqn:Es.
    + destruct (IH out H) as [F ->]. split; [now constructor | reflexivity].
    + cbn [bind] in H. apply bind_ok in H as (tl & Htl & E). injection E as <-.
      destruct (IH tl Htl) as [F ->]. split; [now constructor | reflexivity].
Qed.

(** X1.  [postprocess] returns on a mapping exactly when the name and the
    history are strings or count as false, [mental_illnesses] iterates over
    strings only, and every object among the medications and the diagnoses has
    a name, respectively a label, that is a string or counts as false. *)
Theorem postprocess_returns_iff (data : dict) :
  (exists data', postprocess (JDict data) = Ok (JDict data')) <->
  well_formed_reply data.
Proof.
  split; [|apply postprocess_returns].
  intros (data' & H). simpl in H. apply bind_ok in H as (d & Hd & _).
  apply postprocess_dict_ok in Hd
    as (name & mi & mi' & meds & cleaned & ph & dx & out
        & Hn & Hmi & Ht & Hmeds & Hc & Hph & Hdx & Ho & _).
  repeat split.
  - now apply (placeholder_text_or_nothing _ name).
  - now apply (history_text_or_nothing _ ph).
  - exists mi. split; [assumption|]. now apply (tidy_illnesses_spec mi mi').
  - exists meds. split; [assumption|]. now apply (clean_meds_spec meds cleaned).
  - exists dx. split; [assumption|]. now apply (clean_diagnoses_spec dx out).
Qed.

Lemma tidy_illnesses_raises (mi : list json) (e : exn) :
  tidy_illnesses mi = Err e -> e = AttributeError.
Proof.
  induction mi as [|x rest IH]; [discriminate|].
  destruct x as [| | | |s| |]; try (intros H; now injection H).
  cbn [tidy_illnesses str_strip_truthy strip_of].
  destruct (strip s); [exact IH|]. cbn [bind].
  destruct (tidy_illnesses rest); [discriminate|].
  intros H. apply IH. now injection H as ->.
Qed.

Lemma clean_meds_raises (meds : list json) (e : exn) :
  clean_meds meds = Err e -> e = AttributeError.
Proof.
  induction meds as [|m rest IH]; [discriminate|].
  destruct (clean_meds_step m rest) as [[_ ->] | [_ ->]].
  - destruct (kept_medication m); [|exact IH].
    destruct (clean_meds rest); [discriminate|].
    intros H. apply IH. now injection H as ->.
  - intros H. now injection H.
Qed.

Lemma clean_diagnoses_raises (dx : list json) (e : exn) :
  clean_diagnoses dx = Err e -> e = AttributeError.
Proof.
  induction dx as [|m rest IH]; [discriminate|].
  destruct (clean_diagnoses_step m rest) as [[_ ->] | [_ ->]].
  - destruct (kept_diagnosis m); [|exact IH].
    destruct (clean_diagnoses rest); [discriminate|].
    intros H. apply IH. now injection H as ->.
  - intros H. now injection H.
Qed.

Lemma strip_of_raises (v : json) (e : exn) :
  strip_of v = Err e -> e = AttributeError.
Proof. destruct v; try discriminate; intros H; now injection H. Qed.

Lemma py_iter_raises (v : json) (e : exn) :
  py_iter v = Err e -> e = TypeError.
Proof. destruct v; try discriminate; intros H; now injection H. Qed.

Lemma bind_err {A B} (r : result A) (k : A -> result B) (e : exn) :
  bind r k = Err e -> r = Err e \/ exists a, r = Ok a /\ k a = Err e.
Proof.
  destruct r as [a|e']; simpl; [eauto|]. intros H. left. now injection H as ->.
Qed.

Lemma postprocess_error_kinds (data : json) (e : exn) :
  postprocess data = Err e -> e = AttributeError \/ e = TypeError.
Proof.
  intros H. destruct data as [| | | | | |d];
    try (injection H as <-; now left).
  cbn [postprocess] in H. apply bind_err in H as [H | (a & _ & H)];
    [|discriminate].
  rewrite postprocess_dict_reads in H.
  apply bind_err in H as [H | (name & _ & H)].
  { left. unfold _null_if_placeholder in H.
    destruct (negb (truthy _)); [discriminate|].
    apply bind_err in H as [H | (t & _ & H)]; [now apply strip_of_raises in H|].
    destruct (fullmatch placeholder_re t); [discriminate|].
    apply bind_err in H as [H | (t' & _ & H)];
      [now apply strip_of_raises in H | discriminate]. }
  apply bind_err in H as [H | (mi & _ & H)];
    [right; now apply py_iter_raises in H|].
  apply bind_err in H as [H | (mi' & _ & H)];
    [left; now apply tidy_illnesses_raises in H|].
  apply bind_err in H as [H | (meds & _ & H)];
    [right; now apply py_iter_raises in H|].
  apply bind_err in H as [H | (cleaned & _ & H)];
    [left; now apply clean_meds_raises in H|].
  apply bind_err in H as [H | (ph & _ & H)].
  { left. unfold collapse_history in H.
    apply bind_err in H as [H | (t & _ & H)];
      [now apply strip_of_raises in H | discriminate]. }
  apply bind_err in H as [H | (dx & _ & H)];
    [right; now apply py_iter_raises in H|].
  apply bind_err in H as [H | (out & _ & H)];
    [left; now apply clean_diagnoses_raises in H | discriminate].
Qed.

(** X2.  Whatever value [postprocess] is given, an exception it raises is
    an [AttributeError] or a [TypeError]; and a value that is not an object
    always makes it raise. *)
Theorem postprocess_raises_only (data : json) :
  (forall e, postprocess data = Err e -> e = AttributeError \/ e = TypeError) /\
  ((forall d, data <> JDict d) -> postprocess data = Err AttributeError).
Proof.
  split; [intros e; apply postprocess_error_kinds|].
  intros H. destruct data; try reflexivity. now destruct (H d).
Qed.

(** ** The shape of a normalised record *)

Lemma null_if_placeholder_result (v name : json) :
  _null_if_placeholder v = Ok name ->
  name = JNull \/
  exists t, name = JStr t /\ strip t = t /\ fullmatch placeholder_re t = false.
Proof.
  intros H. destruct v as [|b|z|f|s|l|d].
  - injection H as <-. now left.
  - destruct b; [discriminate|]. injection H as <-. now left.
  - unfold _null_if_placeholder in H. simpl in H.
    destruct (z =? 0); simpl in H; [|discriminate]. injection H as <-. now left.
  - destruct f; try discriminate. injection H as <-. now left.
  - destruct s as [|c s]; [injection H as <-; now left|].
    rewrite null_if_placeholder_str in H by discriminate.
    destruct (fullmatch placeholder_re (strip (c :: s))) eqn:F;
      injection H as <-; [now left | right].
    exists (strip (c :: s)). now rewrite strip_idem.
  - destruct l; [|discriminate]. injection H as <-. now left.
  - destruct d; [|discriminate]. injection H as <-. now left.
Qed.

Lemma tidy_spacing_sub_ws_runs (b : bool) (s : str) :
  tidy_spacing b (sub_ws_runs b s) = true.
Proof.
  revert b. induction s as [|c s IH]; intros b; simpl; [reflexivity|].
  destruct (isspace c) eqn:Hc.
  - destruct b; [apply IH|]. simpl.
    change (isspace 32) with true. cbv iota. simpl. apply IH.
  - simpl. rewrite Hc. apply IH.
Qed.

Lemma collapse_history_result (v : json) (ph : str) :
  collapse_history v = Ok ph -> strip ph = ph /\ tidy_spacing false ph = true.
Proof.
  unfold collapse_history. intros H. apply bind_ok in H as (t & Ht & H).
  injection H as <-. split; [|apply tidy_spacing_sub_ws_runs].
  assert (St : t = [] \/ solid t).
  { destruct (py_or v (JStr [])) as [| | | |s| |]; try discriminate.
    injection Ht as <-. apply strip_shape. }
  destruct St as [-> | St]; [reflexivity|].
  apply strip_solid. now apply solid_sub_ws_runs.
Qed.

Section NormalForm.

Hypothesis upper_solid : forall c, isspace c = false -> solid (str_upper [c]).
Hypothesis lower_solid : forall s, solid s -> solid (str_lower s).

(** X3.  Whenever [postprocess] returns, the record holds all five fields
    in normal form: the name is null or a trimmed string the placeholder
    pattern does not match; every illness is a trimmed text with [str.upper]
    of its first character in place of that character, and has itself no
    surrounding whitespace; every medication is a six-field record whose name
    is [str.lower] of a trimmed text and has no surrounding whitespace; the
    history is trimmed, its only whitespace single spaces; every diagnosis is a
    three-field record whose label is a capitalised trimmed text without
    surrounding whitespace.  (The two hypotheses are facts of [str.upper] and
    [str.lower].) *)
Theorem postprocess_schema (data data' : dict) :
  postprocess (JDict data) = Ok (JDict data') ->
  (dict_lookup data' (py "name") = Some JNull \/
   exists t, dict_lookup data' (py "name") = Some (JStr t) /\
             strip t = t /\ fullmatch placeholder_re t = false) /\
  (exists l, dict_lookup data' (py "mental_illnesses") = Some (JList l) /\
     Forall (fun x => exists c r, x = JStr (str_upper [c] ++ r) /\
                        solid (c :: r) /\ solid (str_upper [c] ++ r)) l) /\
  (exists l, dict_lookup data' (py "medications_taken") = Some (JList l) /\
     Forall (fun r => exists e n, r = medication_record e n /\
                        solid n /\ solid (str_lower n)) l) /\
  (exists ph, dict_lookup data' (py "past_history") = Some (JStr ph) /\
     strip ph = ph /\ tidy_spacing false ph = true) /\
  (exists l, dict_lookup data' (py "diagnoses") = Some (JList l) /\
     Forall (fun r => exists e n, r = diagnosis_record e n /\
                        solid n /\ solid (capitalized n)) l).
Proof.
  intros H. simpl in H. apply bind_ok in H as (d & Hd & E). injection E as <-.
  apply postprocess_dict_ok in Hd
    as (name & mi & mi' & meds & cleaned & ph & dx & out
        & Hn & _ & Ht & _ & Hc & Hph & _ & Ho & ->).
  destruct (store_fields_lookups data name mi' cleaned ph out)
    as (L1 & L2 & L3 & L4 & L5).
  rewrite L1, L2, L3, L4, L5.
  split; [|split; [|split; [|split]]].
  - destruct (null_if_placeholder_result _ _ Hn) as [-> | (t & -> & S & F)];
      [now left | right]. now exists t.
  - exists mi'. split; [reflexivity|].
    apply tidy_illnesses_spec in Ht as [_ ->].
    apply Forall_forall. intros x Hx.
    apply filter_map_in in Hx as (y & _ & Hy).
    destruct y as [| | | |s| |]; try discriminate. simpl in Hy.
    destruct (strip s) as [|c t] eqn:Es; [discriminate|].
    injection Hy as <-. exists c, t.
    pose proof (strip_cons_solid s c t Es) as S0.
    split; [reflexivity|]. split; [assumption|].
    exact (solid_capitalized upper_solid (c :: t) S0).
  - exists cleaned. split; [reflexivity|].
    apply clean_meds_spec in Hc as [_ ->].
    apply Forall_forall. intros r Hr.
    apply filter_map_in in Hr as (m & _ & Hk).
    destruct m as [| | | | | |e]; try discriminate. simpl in Hk.
    destruct (required_text e (py "name")) as [|c t] eqn:Et; [discriminate|].
    injection Hk as <-. exists e, (c :: t). split; [reflexivity|].
    pose proof (required_text_solid e (py "name") c t Et) as S0.
    split; [assumption | now apply lower_solid].
  - exists ph. split; [reflexivity|]. now apply (collapse_history_result _ _ Hph).
  - exists out. split; [reflexivity|].
    apply clean_diagnoses_spec in Ho as [_ ->].
    apply Forall_forall. intros r Hr.
    apply filter_map_in in Hr as (m & _ & Hk).
    destruct m as [| | | | | |e]; try discriminate. simpl in Hk.
    destruct (required_text e (py "label")) as [|c t] eqn:Et; [discriminate|].
    injection Hk as <-. exists e, (c :: t). split; [reflexivity|].
    pose proof (required_text_solid e (py "label") c t Et) as S0.
    split; [assumption | exact (solid_capitalized upper_solid (c :: t) S0)].
Qed.

End NormalForm.

(** ** Keys of a normalised record *)

Lemma dict_set_keys (d : dict) (k : str) (v : json) :
  map fst (dict_set d k v) = map fst d ++ (if has_key d k then [] else [k]).
Proof.
  unfold has_key. induction d as [|[k' v'] d IH]; simpl; [reflexivity|].
  destruct (str_eqb k' k) eqn:E; simpl.
  - now rewrite app_nil_r.
  - now rewrite IH.
Qed.

Lemma has_key_set_other (d : dict) (k k' : str) (v : json) :
  str_eqb k k' = false -> has_key (dict_set d k v) k' = has_key d k'.
Proof. intros H. unfold has_key. now rewrite dict_lookup_set_other. Qed.

Lemma has_key_in (d : dict) (k : str) :
  has_key d k = true <-> In k (map fst d).
Proof.
  unfold has_key. induction d as [|[k' v'] d IH]; simpl.
  - split; [discriminate | contradiction].
  - destruct (str_eqb k' k) eqn:E.
    + apply str_eqb_eq in E. split; [now left | reflexivity].
    + apply str_eqb_neq in E. rewrite IH. split; [now right|].
      intros [F | F]; [contradiction | assumption].
Qed.

Lemma normalized_keys_distinct : NoDup normalized_keys.
Proof.
  unfold normalized_keys.
  repeat (constructor; [simpl; intros H; repeat destruct H as [H|H];
                        try discriminate H; try contradiction|]).
  constructor.
Qed.

Lemma store_fields_keys (data : dict) name mi cleaned ph out :
  map fst (store_fields data name mi cleaned ph out)
  = map fst data ++ filter (fun k => negb (has_key data k)) normalized_keys.
Proof.
  unfold store_fields. rewrite !dict_set_keys.
  rewrite !has_key_set_other by reflexivity.
  unfold normalized_keys. cbn [filter].
  destruct (has_key data (py "name")), (has_key data (py "mental_illnesses")),
    (has_key data (py "medications_taken")), (has_key data (py "past_history")),
    (has_key data (py "diagnoses"));
    cbn [negb]; rewrite <- ?app_assoc; rewrite ?app_nil_r; reflexivity.
Qed.

(** X4.  Whenever [postprocess] returns, the keys of the input keep their
    order and are followed by those of the five normalised keys the input
    lacked, in the order of the assignments; and a mapping without a repeated
    key stays so. *)
Theorem postprocess_keys (data data' : dict) :
  postprocess (JDict data) = Ok (JDict data') ->
  map fst data'
  = map fst data ++ filter (fun k => negb (has_key data k)) normalized_keys /\
  (NoDup (map fst data) -> NoDup (map fst data')).
Proof.
  intros H. simpl in H. apply bind_ok in H as (d & Hd & E). injection E as <-.
  apply postprocess_dict_ok in Hd
    as (name & mi & mi' & meds & cleaned & ph & dx & out
        & _ & _ & _ & _ & _ & _ & _ & _ & ->).
  rewrite store_fields_keys. split; [reflexivity|].
  intros ND. apply NoDup_app; [assumption| |].
  - apply NoDup_filter, normalized_keys_distinct.
  - intros k Hk Hf. apply filter_In in Hf as [_ Hf].
    apply has_key_in in Hk. rewrite Hk in Hf. discriminate.
Qed.

(** ** Illnesses, history and name *)

Lemma filter_map_length {A B} (f : A -> option B) (l : list A) :
  (List.length (filter_map f l) <= List.length l)%nat.
Proof.
  induction l as [|x l IH]; simpl; [lia|]. destruct (f x); simpl; lia.
Qed.

(** X5.  Whenever [postprocess] returns on a mapping whose
    [mental_illnesses] is a list, every entry of that list is a string, and
    the stored list holds, in order, each entry that is not blank, trimmed and
    with [str.upper] of its first character in place of that character; no
    entry is added. *)
Theorem illnesses_normalized (data data' : dict) (mi : list json) :
  postprocess (JDict data) = Ok (JDict data') ->
  dict_lookup data (py "mental_illnesses") = Some (JList mi) ->
  Forall is_text mi /\
  dict_lookup data' (py "mental_illnesses")
    = Some (JList (filter_map kept_illness mi)) /\
  (List.length (filter_map kept_illness mi) <= List.length mi)%nat.
Proof.
  intros H Hm. simpl in H. apply bind_ok in H as (d & Hd & E). injection E as <-.
  apply postprocess_dict_ok in Hd
    as (name & ms & mi' & meds & cleaned & ph & dx & out
        & _ & Hms & Ht & _ & _ & _ & _ & _ & ->).
  unfold dict_get in Hms. rewrite Hm, stored_list_read in Hms.
  injection Hms as <-. apply tidy_illnesses_spec in Ht as [F ->].
  split; [assumption|]. split; [|apply filter_map_length].
  now destruct (store_fields_lookups data name (filter_map kept_illness mi)
                  cleaned ph out) as (_ & L & _).
Qed.

Lemma words_sub_ws_runs (b : bool) (cur s : str) :
  (b = true -> cur = []) ->
  words_from cur (sub_ws_runs b s) = words_from cur s.
Proof.
  revert b cur. induction s as [|c s IH]; intros b cur Hb; simpl; [reflexivity|].
  destruct (isspace c) eqn:Hc.
  - destruct b.
    + rewrite (Hb eq_refl). now apply IH.
    + simpl. change (isspace 32) with true. cbv iota.
      now rewrite (IH true []).
  - simpl. rewrite Hc. apply IH. discriminate.
Qed.

(** X6.  Collapsing the whitespace of a history changes none of its words:
    the stored text has the words of the input, in the same order. *)
Theorem history_words_kept (s : str) :
  exists ph, collapse_history (JStr s) = Ok ph /\ words ph = words s.
Proof.
  exists (sub_ws_runs false (strip s)). split.
  - unfold collapse_history, py_or. now destruct s.
  - unfold words. rewrite words_sub_ws_runs by discriminate.
    apply words_strip.
Qed.

(** X7.  [_null_if_placeholder] raises exactly on a value that counts as
    true and is no string, and then raises [AttributeError]; what it returns
    is null or a trimmed string that the placeholder pattern does not match. *)
Theorem null_if_placeholder_outcome (v : json) :
  (forall e, _null_if_placeholder v = Err e <->
             e = AttributeError /\ truthy v = true /\ ~ is_text v) /\
  (forall name, _null_if_placeholder v = Ok name ->
     name = JNull \/
     exists t, name = JStr t /\ strip t = t /\ fullmatch placeholder_re t = false).
Proof.
  split; [|apply null_if_placeholder_result].
  intros e. unfold _null_if_placeholder.
  destruct v as [|b|z|f|s|l|d]; simpl.
  - split; [discriminate | intros (_ & H & _); discriminate].
  - destruct b; simpl; split; try discriminate.
    + intros H. injection H as <-. auto.
    + intros (-> & _). reflexivity.
    + intros (_ & H & _). discriminate.
  - destruct (z =? 0); simpl; split; try discriminate.
    + intros (_ & H & _). discriminate.
    + intros H. injection H as <-. auto.
    + intros (-> & _). reflexivity.
  - destruct f; simpl; split; try discriminate;
      try (intros H; injection H as <-; now auto);
      try (intros (-> & _); reflexivity).
    intros (_ & H & _). discriminate.
  - split.
    + destruct (negb (negb (str_eqb s []))); [discriminate|].
      destruct (fullmatch placeholder_re (strip s)); discriminate.
    + intros (_ & _ & H). now destruct H.
  - destruct l; simpl; split; try discriminate.
    + intros (_ & H & _). discriminate.
    + intros H. injection H as <-. auto.
    + intros (-> & _). reflexivity.
  - destruct d; simpl; split; try discriminate.
    + intros (_ & H & _). discriminate.
    + intros H. injection H as <-. auto.
    + intros (-> & _). reflexivity.
Qed.

Lemma lstrip_split (s : str) : exists w, s = w ++ lstrip s /\ blank w = true.
Proof.
  induction s as [|c s (w & Hs & Hw)]; [now exists []|]. simpl.
  destruct (isspace c) eqn:Hc.
  - exists (c :: w). simpl. rewrite Hc, Hw. split; [congruence | reflexivity].
  - now exists [].
Qed.

Lemma strip_split (s : str) :
  exists w1 w2, s = w1 ++ strip s ++ w2 /\ blank w1 = true /\ blank w2 = true.
Proof.
  destruct (lstrip_split s) as (w1 & E1 & B1).
  destruct (rstrip_split (lstrip s)) as (w2 & E2 & B2).
  exists w1, w2. unfold strip. now rewrite <- E2, <- E1.
Qed.

Lemma blank_placeholder_chars (w : str) :
  blank w = true -> Forall placeholder_char w.
Proof.
  induction w as [|c w IH]; simpl; intros H; constructor.
  - apply andb_true_iff in H as [H _]. unfold placeholder_char. auto.
  - apply IH. now apply andb_true_iff in H as [_ H].
Qed.

Lemma bracket_token_chars (t : str) :
  bracket_token t -> Forall placeholder_char t.
Proof.
  intros [u _ Hu]. constructor; [left; reflexivity|].
  apply Forall_app. split.
  - apply Forall_forall. intros c Hc.
    rewrite forallb_forall in Hu. right. right. left. now apply Hu.
  - constructor; [right; left; reflexivity | constructor].
Qed.

Lemma placeholder_tokens_chars (p : str) :
  placeholder_tokens p -> Forall placeholder_char p.
Proof.
  induction 1 as [t Ht|t w r Ht Hw _ IH]; [now apply bracket_token_chars|].
  apply Forall_app. split; [now apply bracket_token_chars|].
  apply Forall_app. split; [now apply blank_placeholder_chars | assumption].
Qed.

(** X8.  A name that is stored as null was either empty or written with
    nothing but brackets, letters of [A-Z] and whitespace: a name holding a
    lower-case letter, a digit or any other character is never nulled. *)
Theorem nulled_name_alphabet (s : str) :
  _null_if_placeholder (JStr s) = Ok JNull ->
  Forall placeholder_char s.
Proof.
  intros H. destruct s as [|c s]; [constructor|].
  rewrite null_if_placeholder_str in H by discriminate.
  destruct (fullmatch placeholder_re (strip (c :: s))) eqn:F; [|discriminate].
  apply fullmatch_placeholder_strip in F.
  destruct (strip_split (c :: s)) as (w1 & w2 & E & B1 & B2).
  rewrite E. apply Forall_app. split; [now apply blank_placeholder_chars|].
  apply Forall_app. split;
    [now apply placeholder_tokens_chars | now apply blank_placeholder_chars].
Qed.

Lemma nulled_name_alphabet_witness :
  Forall placeholder_char (py " [NAME] [NAME]").
Proof.
  apply nulled_name_alphabet. vm_compute. reflexivity.
Defined.

Section TitleTwice.

Hypothesis upper_solid : forall c, isspace c = false -> solid (str_upper [c]).
Hypothesis upper_head_fixed :
  forall c d ds, str_upper [c] = d :: ds -> str_upper [d] = [d].

(** X9.  [_title] changes the first character only: the empty text stays
    empty, any other text keeps everything after its first character behind
    [str.upper] of that character; and on a text that does not begin with
    whitespace a second application changes nothing.  (The two hypotheses are
    facts of [str.upper].) *)
Theorem title_first_only (s : str) :
  _title [] = [] /\
  (forall c t, _title (c :: t) = str_upper [c] ++ t) /\
  (lstrip s = s -> _title (_title s) = _title s).
Proof.
  split; [reflexivity|]. split; [reflexivity|].
  intros Hs. rewrite !title_capitalized.
  destruct s as [|c t]; [reflexivity|].
  apply (capitalized_idem_head upper_solid upper_head_fixed).
  simpl in Hs. destruct (isspace c); [|reflexivity].
  exfalso. assert (L : forall u, (List.length (lstrip u) <= List.length u)%nat).
  { induction u as [|x u IHu]; simpl; [lia|]. destruct (isspace x); simpl; lia. }
  specialize (L t). rewrite Hs in L. simpl in L. lia.
Qed.

End TitleTwice.

(** ** Other fences *)

Lemma strip_fenced_with (tag j : str) :
  strip (fenced_with tag j) = fenced_with tag j.
Proof.
  apply strip_solid. split.
  - now exists 96, (tl (fenced_with tag j)).
  - exists (py "```" ++ tag ++ [10] ++ j ++ [10] ++ py "``"), 96.
    split; [|reflexivity]. unfold fenced_with.
    rewrite <- !app_assoc. reflexivity.
Qed.

Lemma strip_char_tail (x : str) :
  rev (lstrip_char 96 (rev (x ++ [10; 96; 96; 96]))) = x ++ [10].
Proof.
  rewrite rev_app_distr.
  change (lstrip_char 96 (rev [10; 96; 96; 96] ++ rev x)) with (rev [10] ++ rev x).
  now rewrite <- rev_app_distr, rev_involutive.
Qed.

Lemma lower_cp_cases (c : codepoint) (l : codepoint) :
  lower_cp c = l -> 97 <= l <= 122 -> c = l \/ c = l - 32.
Proof.
  unfold lower_cp. destruct ((65 <=? c) && (c <=? 90)); intros <- H; [right | left]; lia.
Qed.

(** X10.  The language tag of a fence is recognised in any letter case:
    a reply made of a fence tagged [json], [JSON], [Json], ..., the text and
    the closing fence is reduced to the text, trimmed. *)
Theorem tagged_fence_stripped (tag j : str) :
  lower tag = py "json" ->
  strip_fences (fenced_with tag j) = strip j.
Proof.
  intros Ht.
  destruct tag as [|a [|b [|c [|d [|x tag]]]]]; try discriminate Ht.
  injection Ht as Ha Hb Hc Hd.
  assert (Na : (a =? 96) = false /\ isspace a = false).
  { destruct (lower_cp_cases a _ Ha) as [-> | ->]; try lia; now split. }
  assert (Nd : isspace d = false).
  { destruct (lower_cp_cases d _ Hd) as [-> | ->]; try lia; reflexivity. }
  destruct Na as [Na Sa].
  unfold strip_fences. rewrite strip_fenced_with.
  change (startswith (fenced_with [a; b; c; d] j) (py "```")) with true. cbv iota.
  assert (C : strip_char 96 (fenced_with [a; b; c; d] j)
              = [a; b; c; d] ++ 10 :: j ++ [10]).
  { unfold strip_char.
    change (lstrip_char 96 (fenced_with [a; b; c; d] j))
      with (lstrip_char 96 (([a; b; c; d] ++ 10 :: j) ++ [10; 96; 96; 96])).
    cbn [app lstrip_char]. rewrite Na.
    change (a :: b :: c :: d :: 10 :: j ++ [10; 96; 96; 96])
      with (([a; b; c; d] ++ 10 :: j) ++ [10; 96; 96; 96]).
    rewrite strip_char_tail. now rewrite <- app_assoc. }
  rewrite C.
  assert (T : strip ([a; b; c; d] ++ 10 :: j ++ [10])
              = [a; b; c; d] ++ rstrip (10 :: j ++ [10])).
  { unfold strip. cbn [app]. rewrite lstrip_head by assumption.
    apply (rstrip_after [a; b; c; d]). now apply (rstrip_last [a; b; c]). }
  rewrite T.
  assert (S : startswith (lower ([a; b; c; d] ++ rstrip (10 :: j ++ [10])))
                (py "json") = true).
  { cbn [app lower map]. rewrite Ha, Hb, Hc, Hd. reflexivity. }
  rewrite S.
  change (skipn 4 ([a; b; c; d] ++ rstrip (10 :: j ++ [10])))
    with (rstrip (10 :: j ++ [10])).
  rewrite strip_rstrip. now apply (strip_padded [10] j [10]).
Qed.

Lemma tagged_fence_stripped_witness :
  strip_fences (fenced_with (py "JSON") (py " [1] ")) = py "[1]".
Proof.
  refine (tagged_fence_stripped (py "JSON") (py " [1] ") _). reflexivity.
Defined.

(** X11.  A fence without a language tag is removed as well: the reply is
    reduced to the text, trimmed, provided the text does not itself begin
    with the four letters of the tag, in any case. *)
Theorem bare_fence_stripped (j : str) :
  startswith (lower (strip j)) (py "json") = false ->
  strip_fences (fenced_with [] j) = strip j.
Proof.
  intros H. unfold strip_fences. rewrite strip_fenced_with.
  change (startswith (fenced_with [] j) (py "```")) with true. cbv iota.
  assert (C : strip_char 96 (fenced_with [] j) = 10 :: j ++ [10]).
  { unfold strip_char.
    change (lstrip_char 96 (fenced_with [] j))
      with ((10 :: j) ++ [10; 96; 96; 96]).
    apply strip_char_tail. }
  assert (P : strip (10 :: j ++ [10]) = strip j)
    by now apply (strip_padded [10] j [10]).
  rewrite C, P. now rewrite H.
Qed.

Lemma bare_fence_stripped_witness :
  strip_fences (fenced_with [] (py " [1] ")) = py "[1]".
Proof.
  refine (bare_fence_stripped (py " [1] ") _). reflexivity.
Defined.

(** X12.  Whatever the reply, the text handed to the decoder neither begins
    nor ends with whitespace. *)
Theorem strip_fences_trimmed (reply : str) :
  strip (strip_fences reply) = strip_fences reply.
Proof.
  unfold strip_fences.
  destruct (startswith (strip reply) (py "```")); [|apply strip_idem].
  destruct (startswith _ (py "json")); apply strip_idem.
Qed.

(** ** The handler *)

Section Handler.

Variable PdfReader_pages : list byte -> result (list (option str)).
Variable Document_paragraphs : list byte -> result (list str).
Variable chat_completion : str -> str -> result str.
Variable json_loads : str -> result json.
Variable exn_text : exn -> str.
Variable EXTRACTION_INSTRUCTIONS : str.

Local Notation "'extractor'" :=
  (extract_text_from_upload PdfReader_pages Document_paragraphs).
Local Notation "'inference'" :=
  (infer_and_normalize chat_completion json_loads exn_text).
Local Notation "'handler'" :=
  (extract_patient_data PdfReader_pages Document_paragraphs chat_completion
     json_loads exn_text EXTRACTION_INSTRUCTIONS).
Local Notation "'prompt_of'" := (user_prompt_of EXTRACTION_INSTRUCTIONS).

Lemma inference_log (prompt : str) :
  fst (inference prompt) = [CallInference SYSTEM_PROMPT prompt].
Proof.
  unfold infer_and_normalize, call_inference, then_.
  destruct (chat_completion SYSTEM_PROMPT prompt) as [reply|[]]; try reflexivity.
  destruct (bind _ postprocess) as [|[]]; reflexivity.
Qed.

Lemma handler_unfolded (file : UploadFile) (b : byte) (raw : list byte) :
  handler file (b :: raw) =
    match extractor file (b :: raw) with
    | Err e => ([CallExtractText], Unhandled e)
    | Ok extracted =>
        match strip extracted with
        | [] => ([CallExtractText],
                 HTTPException 400 (py "Could not read text from the file."))
        | text => (CallExtractText :: fst (inference (prompt_of text)),
                   snd (inference (prompt_of text)))
        end
    end.
Proof.
  unfold extract_patient_data, call_extractor, then_.
  destruct (extractor file (b :: raw)) as [t|e]; [|reflexivity].
  destruct (strip t); [reflexivity|]. now destruct (inference _).
Qed.

Lemma blank_text_response (file : UploadFile) (raw : list byte) (t : str) :
  raw <> [] -> extractor file raw = Ok t -> blank t = true ->
  handler file raw
  = ([CallExtractText],
     HTTPException 400 (py "Could not read text from the file.")).
Proof.
  intros Hr Ht Hb. destruct raw as [|b raw]; [contradiction|].
  rewrite handler_unfolded, Ht, (strip_blank t Hb). reflexivity.
Qed.

(** X13.  When the extractor returns nothing but whitespace for an upload
    that has bytes, the answer is status 400 with the unreadable-text message
    and the inference client is not called. *)
Theorem blank_text_rejected (file : UploadFile) (raw : list byte) (t : str) :
  raw <> [] -> extractor file raw = Ok t -> blank t = true ->
  handler file raw
  = ([CallExtractText],
     HTTPException 400 (py "Could not read text from the file.")).
Proof. apply blank_text_response. Qed.

(** X14.  Whatever the upload, the handler calls the extractor at most
    once and the inference client at most once, the client only after the
    extractor and only with the fixed system prompt and a user prompt built
    from a text that is not empty and is trimmed. *)
Theorem handler_call_log (file : UploadFile) (raw : list byte) :
  fst (handler file raw) = [] \/
  fst (handler file raw) = [CallExtractText] \/
  exists text, text <> [] /\ strip text = text /\
    fst (handler file raw)
    = [CallExtractText; CallInference SYSTEM_PROMPT (prompt_of text)].
Proof.
  destruct raw as [|b raw]; [now left | right].
  rewrite handler_unfolded.
  destruct (extractor file (b :: raw)) as [t|e]; [|now left].
  destruct (strip t) as [|c r] eqn:E; [now left | right].
  exists (c :: r). split; [discriminate|]. split.
  - rewrite <- E. apply strip_idem.
  - cbn [fst]. now rewrite inference_log.
Qed.

Lemma inference_ok (prompt : str) (body : json) :
  snd (inference prompt) = Response200 body ->
  exists reply data,
    chat_completion SYSTEM_PROMPT prompt = Ok reply /\
    json_loads (strip_fences reply) = Ok data /\
    postprocess data = Ok body.
Proof.
  unfold infer_and_normalize, call_inference, then_.
  destruct (chat_completion SYSTEM_PROMPT prompt) as [reply|[]]; try discriminate.
  destruct (bind _ postprocess) as [b|[]] eqn:E; try discriminate.
  intros H. injection H as <-. apply bind_ok in E as (data & Hd & Hp).
  now exists reply, data.
Qed.

(** X15.  A 200 answer always carries a normalised object: the model's
    reply, fences removed, decoded to an object, [postprocess] returned on it,
    and the body is its result, holding all five normalised keys. *)
Theorem ok_response_is_normalised (file : UploadFile) (raw : list byte)
    (body : json) :
  snd (handler file raw) = Response200 body ->
  exists prompt reply data data',
    chat_completion SYSTEM_PROMPT prompt = Ok reply /\
    json_loads (strip_fences reply) = Ok (JDict data) /\
    postprocess (JDict data) = Ok (JDict data') /\
    body = JDict data' /\
    Forall (fun k => has_key data' k = true) normalized_keys.
Proof.
  destruct raw as [|b raw]; [discriminate|]. rewrite handler_unfolded.
  destruct (extractor file (b :: raw)) as [t|e]; [|discriminate].
  destruct (strip t) as [|c r]; [discriminate|]. cbn [snd]. intros H.
  apply inference_ok in H as (reply & data & Hc & Hj & Hp).
  destruct data as [| | | | | |d]; try discriminate.
  pose proof Hp as Hp'. simpl in Hp'.
  apply bind_ok in Hp' as (d' & Hd & E). injection E as <-.
  exists (prompt_of (c :: r)), reply, d, d'. repeat split; try assumption.
  apply postprocess_dict_ok in Hd
    as (name & mi & mi' & meds & cleaned & ph & dx & out
        & _ & _ & _ & _ & _ & _ & _ & _ & ->).
  destruct (store_fields_lookups d name mi' cleaned ph out)
    as (K1 & K2 & K3 & K4 & K5).
  unfold normalized_keys, has_key.
  repeat constructor; now rewrite ?K1, ?K2, ?K3, ?K4, ?K5.
Qed.

Lemma inference_cases (prompt : str) :
  match chat_completion SYSTEM_PROMPT prompt with
  | Err (JSONDecodeError _) =>
      snd (inference prompt) = Unhandled UnboundLocalError
  | _ =>
      (exists body, snd (inference prompt) = Response200 body) \/
      (exists detail, snd (inference prompt) = HTTPException 500 detail)
  end.
Proof.
  unfold infer_and_normalize, call_inference, then_.
  destruct (chat_completion SYSTEM_PROMPT prompt) as [reply|[]]; cbn [snd];
    try (right; now eexists); try reflexivity.
  destruct (bind _ postprocess) as [|[]]; cbn [snd];
    try (right; now eexists). left. now eexists.
Qed.

(** X16.  The handler answers 400 exactly when the upload is empty or its
    extracted text is blank; any other status it answers is 500, and 200 and
    500 come only after a text that is not blank was extracted from an upload
    that is not empty; it lets an exception through exactly when the upload
    is not empty and either the extractor raised it, or the client itself
    raised a decode error on the prompt built from the extracted text. *)
Theorem handler_outcomes (file : UploadFile) (raw : list byte) :
  ((exists detail, snd (handler file raw) = HTTPException 400 detail) <->
   (raw = [] \/ exists t, extractor file raw = Ok t /\ blank t = true)) /\
  (forall code detail, snd (handler file raw) = HTTPException code detail ->
     code = 400 \/
     (code = 500 /\ raw <> [] /\
      exists t, extractor file raw = Ok t /\ blank t = false)) /\
  (forall body, snd (handler file raw) = Response200 body ->
     raw <> [] /\ exists t, extractor file raw = Ok t /\ blank t = false) /\
  (forall e, snd (handler file raw) = Unhandled e <->
     raw <> [] /\
     (extractor file raw = Err e \/
      (e = UnboundLocalError /\
       exists t msg, extractor file raw = Ok t /\ blank t = false /\
         chat_completion SYSTEM_PROMPT (prompt_of (strip t))
         = Err (JSONDecodeError msg)))).
Proof.
  destruct raw as [|b raw].
  { cbn [extract_patient_data done snd].
    split; [|split; [|split]].
    - split; [now left | intros _; now eexists].
    - intros code detail H. injection H as <- _. now left.
    - discriminate.
    - intros e. split; [discriminate | intros [N _]; now destruct N]. }
  rewrite handler_unfolded.
  destruct (extractor file (b :: raw)) as [t|e0] eqn:X.
  2:{ cbn [snd]. split; [|split; [|split]].
      - split; [intros (d & H); discriminate|].
        intros [H | (t & H & _)]; discriminate.
      - discriminate.
      - discriminate.
      - intros e. split.
        + intros H. injection H as <-. split; [discriminate | now left].
        + intros [_ [H | (_ & t & msg & H & _)]]; [|discriminate].
          now injection H as <-. }
  destruct (strip t) as [|c r] eqn:E.
  { pose proof (strip_nil_blank t E) as B. cbn [snd].
    split; [|split; [|split]].
    - split; [intros _; right; now exists t | intros _; now eexists].
    - intros code detail H. injection H as <- _. now left.
    - discriminate.
    - intros e. split; [discriminate|].
      intros [_ [H | (_ & t' & msg & H & B' & _)]]; [discriminate|].
      injection H as <-. congruence. }
  assert (B : blank t = false).
  { destruct (blank t) eqn:B; [|reflexivity].
    rewrite (strip_blank t B) in E. discriminate. }
  cbn [snd]. pose proof (inference_cases (prompt_of (c :: r))) as K.
  split; [|split; [|split]].
  - split.
    + intros (d & H).
      destruct (chat_completion SYSTEM_PROMPT (prompt_of (c :: r))) as [?|[]];
        try destruct K as [(x & K) | (x & K)]; rewrite K in H; discriminate.
    + intros [H | (t' & H & B')]; [discriminate|].
      injection H as <-. congruence.
  - intros code detail H. right.
    destruct (chat_completion SYSTEM_PROMPT (prompt_of (c :: r))) as [?|[]];
      try destruct K as [(x & K) | (x & K)]; rewrite K in H;
      try discriminate; injection H as <- _;
      (split; [reflexivity|]; split; [discriminate | now exists t]).
  - intros body _. split; [discriminate | now exists t].
  - intros e. split.
    + intros H. split; [discriminate|]. right.
      destruct (chat_completion SYSTEM_PROMPT (prompt_of (c :: r))) as [?|[]] eqn:C;
        try destruct K as [(x & K) | (x & K)]; rewrite K in H;
        try discriminate. injection H as <-. split; [reflexivity|].
      exists t, msg. rewrite E. auto.
    + intros [_ [H | (-> & t' & msg & H & _ & C)]]; [discriminate|].
      injection H as <-. rewrite E in C. now rewrite C in K.
Qed.

(** X17.  When the reply decodes but [postprocess] raises on the value,
    the answer is status 500 with the extraction-failed message and the text
    of the exception. *)
Theorem normaliser_failure_is_500 (prompt reply : str) (data : json) (e : exn) :
  chat_completion SYSTEM_PROMPT prompt = Ok reply ->
  json_loads (strip_fences reply) = Ok data ->
  postprocess data = Err e ->
  inference prompt
  = ([CallInference SYSTEM_PROMPT prompt],
     HTTPException 500 (py "Extraction failed: " ++ exn_text e)).
Proof.
  intros Hc Hj Hp. unfold infer_and_normalize, call_inference, then_.
  rewrite Hc, Hj. cbn [bind]. rewrite Hp.
  destruct (postprocess_error_kinds data e Hp) as [-> | ->]; reflexivity.
Qed.

Lemma blank_join (parts : list str) :
  Forall (fun p => blank p = true) parts -> blank (join [10] parts) = true.
Proof.
  induction 1 as [|p rest Hp _ IH]; [reflexivity|].
  destruct rest as [|q rest]; [exact Hp|].
  change (join [10] (p :: q :: rest)) with (p ++ [10] ++ join [10] (q :: rest)).
  now rewrite !blank_app, Hp, IH.
Qed.

(** X18.  A PDF whose pages hold no text, or only whitespace, is answered
    with status 400 and the unreadable-text message, without any call to the
    inference client. *)
Theorem textless_pdf_rejected (file : UploadFile) (raw : list byte)
    (pages : list (option str)) :
  raw <> [] ->
  endswith (lower (or_empty (filename file))) (py ".pdf")
    || contains (lower (or_empty (content_type file))) (py "pdf") = true ->
  PdfReader_pages raw = Ok pages ->
  Forall (fun p => blank (or_empty p) = true) pages ->
  handler file raw
  = ([CallExtractText],
     HTTPException 400 (py "Could not read text from the file.")).
Proof.
  intros Hr Hd Hp Hb.
  apply (blank_text_response file raw (join [10] (map or_empty pages)));
    [assumption| |].
  - unfold extract_text_from_upload, _read_pdf. now rewrite Hd, Hp.
  - apply blank_join. now apply Forall_map.
Qed.

End Handler.

(** ** The decoder on arbitrary bytes *)

Lemma tails_ind (P : list byte -> Prop) :
  P [] ->
  (forall b t, P t -> P (tl t) -> P (tl (tl t)) -> P (tl (tl (tl t))) ->
               P (b :: t)) ->
  forall l, P l.
Proof.
  intros H0 Hs l.
  assert (Q : P l /\ P (tl l) /\ P (tl (tl l)) /\ P (tl (tl (tl l)))).
  { induction l as [|b l (A & B & C & D)]; [now repeat split|].
    repeat split; try assumption. now apply Hs. }
  apply Q.
Qed.

Ltac split_tests :=
  repeat match goal with
    | |- context [if ?c then _ else _] => destruct c eqn:?
    end.

Ltac tests_to_Z :=
  unfold is_continuation in *;
  repeat match goal with
    | H : context [if ?c then _ else _] |- _ => destruct c eqn:?
    | H : negb _ = true |- _ => apply negb_true_iff in H
    | H : negb _ = false |- _ => apply negb_false_iff in H
    | H : (_ && _) = true |- _ => apply andb_true_iff in H; destruct H
    | H : (_ || _) = false |- _ => apply orb_false_iff in H; destruct H
    | H : (_ && _) = false |- _ => apply andb_false_iff in H; destruct H
    | H : (_ || _) = true |- _ => apply orb_true_iff in H; destruct H
    | H : (_ <? _) = true |- _ => apply Z.ltb_lt in H
    | H : (_ <? _) = false |- _ => apply Z.ltb_ge in H
    | H : (_ <=? _) = true |- _ => apply Z.leb_le in H
    | H : (_ <=? _) = false |- _ => apply Z.leb_gt in H
    | H : (_ =? _) = true |- _ => apply Z.eqb_eq in H
    | H : (_ =? _) = false |- _ => apply Z.eqb_neq in H
    end.

Ltac scalar_leaf :=
  first
    [ assumption
    | constructor;
      [ unfold scalar_value, octet in *; tests_to_Z; lia
      | first [assumption | constructor] ] ].

Lemma Forall_tl {A} (P : A -> Prop) (l : list A) :
  Forall P l -> Forall P (tl l).
Proof. intros [|x l' _ H]; [constructor | exact H]. Qed.

Ltac open_octets :=
  repeat match goal with
    | H : Forall octet (_ :: _) |- _ => inversion H; subst; clear H
    end.

Lemma decode_scalar (raw : list byte) :
  Forall octet raw -> Forall scalar_value (utf8_decode_ignore raw).
Proof.
  induction raw as [|b1 t1 IH1 IH2 IH3 IH4] using tails_ind; [constructor|].
  intros F. inversion F as [|? ? O1 F1]; subst. clear F.
  specialize (IH1 F1).
  specialize (IH2 (Forall_tl _ _ F1)).
  specialize (IH3 (Forall_tl _ _ (Forall_tl _ _ F1))).
  specialize (IH4 (Forall_tl _ _ (Forall_tl _ _ (Forall_tl _ _ F1)))).
  cbn [utf8_decode_ignore].
  destruct t1 as [|b2 [|b3 [|b4 t4]]]; cbn [tl] in *; cbv beta iota;
    open_octets; split_tests; scalar_leaf.
Qed.

Lemma decode_length (raw : list byte) :
  (List.length (utf8_decode_ignore raw) <= List.length raw)%nat.
Proof.
  induction raw as [|b1 t1 IH1 IH2 IH3 IH4] using tails_ind; [reflexivity|].
  cbn [utf8_decode_ignore].
  destruct t1 as [|b2 [|b3 [|b4 t4]]]; cbn [tl] in *; cbv beta iota;
    split_tests; cbn [List.length] in *; lia.
Qed.

Lemma decode_ascii_all (raw : list byte) :
  Forall (fun b => b < 128) raw -> utf8_decode_ignore raw = raw.
Proof.
  induction 1 as [|b raw Hb _ IH]; [reflexivity|].
  rewrite decode_ascii by assumption. now rewrite IH.
Qed.

Lemma encode_octets (text : str) :
  Forall scalar_value text -> Forall octet (utf8_encode text).
Proof.
  clear str_upper str_lower.
  induction 1 as [|c text [[Lo Hi] NS] _ IH]; [constructor|].
  unfold utf8_encode in *. cbn [flat_map]. apply Forall_app. split; [|exact IH].
  unfold utf8_encode_cp.
  destruct (Z.ltb_spec c 128); [|destruct (Z.ltb_spec c 2048);
                                  [|destruct (Z.ltb_spec c 65536)]];
    repeat constructor; unfold octet; Z.div_mod_to_equations; lia.
Qed.

(** X19.  Whatever bytes are uploaded, the decoded text holds only Unicode
    scalar values, never a surrogate or a number past the last code point, and
    it has at most as many characters as the upload has bytes. *)
Theorem decoded_text_is_valid (raw : list byte) :
  Forall octet raw ->
  Forall scalar_value (_read_txt raw) /\
  (List.length (_read_txt raw) <= List.length raw)%nat.
Proof.
  intros F. split; [now apply decode_scalar | apply decode_length].
Qed.

Lemma decoded_text_is_valid_witness :
  Forall scalar_value (_read_txt [104; 255; 226; 130; 172; 237; 160; 128; 195]).
Proof.
  refine (proj1 (decoded_text_is_valid _ _)).
  repeat (constructor; [unfold octet; lia|]). constructor.
Defined.

(** X20.  Bytes below 128 are their own decoding: an ASCII upload is
    extracted character for character. *)
Theorem ascii_upload_unchanged (raw : list byte) :
  Forall (fun b => b < 128) raw -> _read_txt raw = raw.
Proof. apply decode_ascii_all. Qed.

Lemma ascii_upload_unchanged_witness :
  _read_txt [72; 105; 10; 33] = [72; 105; 10; 33].
Proof.
  apply ascii_upload_unchanged. repeat (constructor; [lia|]). constructor.
Defined.

(** X21.  The extracted text is a fixed point of the codec: encoding it
    as UTF-8 gives bytes, and decoding those gives the text back, whatever
    invalid sequences the upload held. *)
Theorem decoded_text_reencodes (raw : list byte) :
  Forall octet raw ->
  Forall octet (utf8_encode (_read_txt raw)) /\
  _read_txt (utf8_encode (_read_txt raw)) = _read_txt raw.
Proof.
  intros F. pose proof (decode_scalar raw F) as S. split.
  - now apply encode_octets.
  - now apply decode_encode.
Qed.

Lemma decoded_text_reencodes_witness :
  _read_txt (utf8_encode (_read_txt [104; 255; 226; 130; 172; 195]))
  = _read_txt [104; 255; 226; 130; 172; 195].
Proof.
  refine (proj2 (decoded_text_reencodes _ _)).
  repeat (constructor; [unfold octet; lia|]). constructor.
Defined.

(** ** Choosing the reader *)

Lemma startswith_app (p x : str) : startswith (p ++ x) p = true.
Proof.
  induction p as [|c p IH]; simpl; [reflexivity|]. now rewrite Z.eqb_refl.
Qed.

Lemma endswith_app (a b : str) : endswith (a ++ b) b = true.
Proof. unfold endswith. rewrite rev_app_distr. apply startswith_app. Qed.

Lemma or_empty_some (s : str) : or_empty (Some s) = s.
Proof. now destruct s. Qed.

Lemma lower_app (a b : str) : lower (a ++ b) = lower a ++ lower b.
Proof. apply map_app. Qed.

(** X22.  A file name ending in [.pdf], in any letter case, sends the
    upload to the PDF reader whatever the declared content type. *)
Theorem pdf_name_any_case
    (PdfReader_pages : list byte -> result (list (option str)))
    (Document_paragraphs : list byte -> result (list str))
    (file : UploadFile) (raw : list byte) (stem ext : str) :
  filename file = Some (stem ++ ext) ->
  lower ext = py ".pdf" ->
  extract_text_from_upload PdfReader_pages Document_paragraphs file raw
  = _read_pdf PdfReader_pages raw.
Proof.
  intros Hf He. unfold extract_text_from_upload.
  now rewrite Hf, or_empty_some, lower_app, He, endswith_app.
Qed.

Lemma pdf_name_any_case_witness :
  extract_text_from_upload no_pages no_paragraphs pdf_upload [37; 80; 68; 70]
  = Ok [10; 32; 10].
Proof.
  refine (pdf_name_any_case no_pages no_paragraphs pdf_upload [37; 80; 68; 70]
            (py "scan") (py ".PDF") _ _); reflexivity.
Defined.

(** X23.  A file name ending in [.docx], in any letter case, sends the
    upload to the DOCX reader unless the content type names [pdf], in which
    case the PDF reader is used. *)
Theorem docx_name_any_case
    (PdfReader_pages : list byte -> result (list (option str)))
    (Document_paragraphs : list byte -> result (list str))
    (file : UploadFile) (raw : list byte) (stem ext : str) :
  filename file = Some (stem ++ ext) ->
  lower ext = py ".docx" ->
  extract_text_from_upload PdfReader_pages Document_paragraphs file raw
  = if contains (lower (or_empty (content_type file))) (py "pdf")
    then _read_pdf PdfReader_pages raw
    else _read_docx Document_paragraphs raw.
Proof.
  intros Hf He. unfold extract_text_from_upload.
  rewrite Hf, or_empty_some, lower_app, He, endswith_app.
  assert (N : endswith (lower stem ++ py ".docx") (py ".pdf") = false).
  { unfold endswith. rewrite rev_app_distr. reflexivity. }
  rewrite N. now destruct (contains _ (py "pdf")).
Qed.

Lemma docx_name_any_case_witness :
  extract_text_from_upload no_pages no_paragraphs docx_upload [80; 75]
  = Err (LibraryError (py "not a document")).
Proof.
  refine (docx_name_any_case no_pages no_paragraphs docx_upload [80; 75]
            (py "Letter") (py ".DocX") _ _); reflexivity.
Defined.

(** ** Fields that hold something else than a list *)

Lemma strip_single (c : codepoint) :
  strip [c] = if isspace c then [] else [c].
Proof.
  unfold strip. simpl lstrip. destruct (isspace c) eqn:Hc; [reflexivity|].
  now apply (rstrip_last []).
Qed.

Lemma tidy_illnesses_letters (s : str) :
  tidy_illnesses (map (fun c => JStr [c]) s) = Ok (filter_map kept_letter s).
Proof.
  induction s as [|c s IH]; [reflexivity|].
  cbn [map tidy_illnesses str_strip_truthy strip_of filter_map].
  unfold kept_letter at 1. rewrite strip_single.
  destruct (isspace c); [exact IH|]. cbn [bind]. rewrite IH.
  cbn [bind _title firstn skipn]. now rewrite app_nil_r.
Qed.

Lemma clean_meds_texts (l : list str) :
  clean_meds (map JStr l) = Ok [].
Proof. induction l as [|x l IH]; [reflexivity | exact IH]. Qed.

Lemma clean_diagnoses_texts (l : list str) :
  clean_diagnoses (map JStr l) = Ok [].
Proof. induction l as [|x l IH]; [reflexivity | exact IH]. Qed.

Lemma iter_text_items (v : json) (items : list json) :
  (exists s, v = JStr s) \/ (exists d, v = JDict d) ->
  py_iter (py_or v (JList [])) = Ok items ->
  exists l, items = map JStr l.
Proof.
  intros [(s & ->) | (d & ->)] H.
  - destruct s as [|c s]; simpl in H; injection H as <-.
    + now exists [].
    + exists (map (fun x => [x]) (c :: s)). now rewrite map_map.
  - destruct d as [|kv d]; simpl in H; injection H as <-.
    + now exists [].
    + exists (map fst (kv :: d)). now rewrite map_map.
Qed.

(** X24.  When [mental_illnesses] holds a string instead of a list,
    [postprocess] does not raise on it: the stored list has one entry for each
    character of the string that is not whitespace, that character in upper
    case by [str.upper]. *)
Theorem illnesses_from_string (data data' : dict) (s : str) :
  postprocess (JDict data) = Ok (JDict data') ->
  dict_lookup data (py "mental_illnesses") = Some (JStr s) ->
  dict_lookup data' (py "mental_illnesses")
  = Some (JList (filter_map kept_letter s)).
Proof.
  intros H Hm. simpl in H. apply bind_ok in H as (d & Hd & E). injection E as <-.
  apply postprocess_dict_ok in Hd
    as (name & mi & mi' & meds & cleaned & ph & dx & out
        & _ & Hmi & Ht & _ & _ & _ & _ & _ & ->).
  destruct (store_fields_lookups data name mi' cleaned ph out) as (_ & L & _).
  rewrite L. unfold dict_get in Hmi. rewrite Hm in Hmi.
  destruct s as [|c s]; simpl in Hmi; injection Hmi as <-.
  - injection Ht as <-. reflexivity.
  - change (JStr [c] :: map (fun x => JStr [x]) s)
      with (map (fun x => JStr [x]) (c :: s)) in Ht.
    rewrite tidy_illnesses_letters in Ht. now injection Ht as <-.
Qed.

(** X25.  When [medications_taken] or [diagnoses] holds a string or an
    object instead of a list, [postprocess], if it returns, stores the empty
    list for that field: the characters, respectively the keys, are all
    skipped as entries that are no objects. *)
Theorem records_from_text_or_object (data data' : dict) (k : str) (v : json) :
  postprocess (JDict data) = Ok (JDict data') ->
  k = py "medications_taken" \/ k = py "diagnoses" ->
  dict_lookup data k = Some v ->
  (exists s, v = JStr s) \/ (exists d, v = JDict d) ->
  dict_lookup data' k = Some (JList []).
Proof.
  intros H Hk Hv Hshape. simpl in H.
  apply bind_ok in H as (d & Hd & E). injection E as <-.
  apply postprocess_dict_ok in Hd
    as (name & mi & mi' & meds & cleaned & ph & dx & out
        & _ & _ & _ & Hmeds & Hc & _ & Hdx & Ho & ->).
  destruct (store_fields_lookups data name mi' cleaned ph out)
    as (_ & _ & L3 & _ & L5).
  unfold dict_get in Hmeds, Hdx.
  destruct Hk as [-> | ->].
  - rewrite L3. rewrite Hv in Hmeds.
    destruct (iter_text_items v meds Hshape Hmeds) as (l & ->).
    rewrite clean_meds_texts in Hc. now injection Hc as <-.
  - rewrite L5. rewrite Hv in Hdx.
    destruct (iter_text_items v dx Hshape Hdx) as (l & ->).
    rewrite clean_diagnoses_texts in Ho. now injection Ho as <-.
Qed.

(** ** The examples of the specification, on ASCII text *)

Section AsciiText.

(** On ASCII text [str.upper] and [str.lower] are the ASCII maps. *)
Hypothesis upper_ascii :
  forall s, Forall (fun c => 0 <= c < 128) s -> str_upper s = upper s.
Hypothesis lower_ascii :
  forall s, Forall (fun c => 0 <= c < 128) s -> str_lower s = lower s.

Lemma specification_examples :
  clean_meds [JDict [(py "name", JStr (py "Sertraline"))]]
  = Ok [JDict [ (py "name", JStr (py "sertraline"));
                (py "dose", JNull);
                (py "route", JNull);
                (py "frequency", JNull);
                (py "duration", JNull);
                (py "reason", JNull) ]] /\
  clean_diagnoses [JDict [ (py "label", JStr (py "depression"));
                           (py "code", JStr (py "F32.1")) ]]
  = Ok [JDict [ (py "label", JStr (py "Depression"));
                (py "code", JStr (py "F32.1"));
                (py "priority", JNull) ]].
Proof.
  split; vm_compute.
  - rewrite lower_ascii by (repeat (constructor; [lia|]); constructor).
    reflexivity.
  - rewrite upper_ascii by (repeat (constructor; [lia|]); constructor).
    reflexivity.
Qed.

End AsciiText.

End CaseMaps.

(** * Counterexamples and worked instances *)

(** C8, as stated, fails, whatever the case maps: a priority of [0] lies
    outside high, medium and low, and is stored as null instead of being
    passed on. *)
Lemma zero_priority_not_passed_through :
  ~ (exists str_upper str_lower : str -> str,
     forall (e out data' : dict) (p : json),
       dict_lookup e (py "priority") = Some p ->
       ~ In p [JStr (py "high"); JStr (py "medium"); JStr (py "low")] ->
       postprocess str_upper str_lower
         (JDict [(py "diagnoses", JList [JDict e])]) = Ok (JDict data') ->
       dict_lookup data' (py "diagnoses") = Some (JList [JDict out]) ->
       dict_lookup out (py "priority") = Some p).
Proof.
  intros (up & lo & H).
  specialize (H [(py "label", JStr (py "flu")); (py "priority", JInt 0)]
                [(py "label", JStr (up [102] ++ py "lu")); (py "code", JNull);
                 (py "priority", JNull)]
                [(py "diagnoses",
                  JList [JDict [(py "label", JStr (up [102] ++ py "lu"));
                                (py "code", JNull);
                                (py "priority", JNull)]]);
                 (py "name", JNull);
                 (py "mental_illnesses", JList []);
                 (py "medications_taken", JList []);
                 (py "past_history", JStr [])]
                (JInt 0)).
  assert (E : Some JNull = Some (JInt 0)).
  { apply H.
    - reflexivity.
    - simpl. intros [E|[E|[E|[]]]]; discriminate E.
    - vm_compute. reflexivity.
    - reflexivity. }
  discriminate E.
Qed.

(** C10, as stated, fails, whatever the case maps: a name of one space is
    stored as the empty string, and a second application stores null. *)
Lemma postprocess_not_idempotent :
  ~ (exists str_upper str_lower : str -> str,
     forall data out : json,
       postprocess str_upper str_lower data = Ok out ->
       postprocess str_upper str_lower out = Ok out).
Proof.
  intros (up & lo & H).
  specialize (H (JDict [(py "name", JStr [32])])
                (JDict [ (py "name", JStr []);
                         (py "mental_illnesses", JList []);
                         (py "medications_taken", JList []);
                         (py "past_history", JStr []);
                         (py "diagnoses", JList []) ])).
  assert (E : postprocess up lo
                (JDict [ (py "name", JStr []);
                         (py "mental_illnesses", JList []);
                         (py "medications_taken", JList []);
                         (py "past_history", JStr []);
                         (py "diagnoses", JList []) ])
              = Ok (JDict [ (py "name", JNull);
                            (py "mental_illnesses", JList []);
                            (py "medications_taken", JList []);
                            (py "past_history", JStr []);
                            (py "diagnoses", JList []) ]))
    by (vm_compute; reflexivity).
  rewrite H in E by (vm_compute; reflexivity).
  discriminate E.
Qed.

Lemma title_first_only_witness :
  _title upper (_title upper (py "depression")) = _title upper (py "depression").
Proof.
  refine (proj2 (proj2 (title_first_only upper ascii_upper_solid
                          ascii_upper_head_fixed (py "depression"))) _).
  reflexivity.
Defined.

Lemma postprocess_frame_witness :
  dict_lookup sample_normalized (py "age") = dict_lookup sample_record (py "age") /\
  forall k, ~ In k normalized_keys ->
            dict_lookup sample_normalized k = dict_lookup sample_record k.
Proof.
  apply (postprocess_frame upper lower sample_record sample_normalized).
  vm_compute. reflexivity.
Defined.

Lemma past_history_collapsed_witness :
  dict_lookup sample_note_normalized (py "past_history") = Some (JStr (py "a b c")).
Proof.
  refine (proj1 (proj1 (past_history_collapsed upper lower sample_note sample_note_normalized _)
                   ([32; 32] ++ py "a" ++ [32; 32; 32] ++ py "b" ++ [9] ++ py "c" ++ [32])
                   _)).
  - vm_compute. reflexivity.
  - reflexivity.
Defined.

Lemma name_placeholder_nulled_witness :
  dict_lookup sample_note_normalized (py "name") = Some (JStr (py "Jane Doe")).
Proof.
  destruct (name_placeholder_nulled upper lower sample_note sample_note_normalized
              (py " Jane Doe ")) as (_ & _ & Keep & Decide).
  - vm_compute. reflexivity.
  - reflexivity.
  - discriminate.
  - apply Keep, Decide. vm_compute. reflexivity.
Defined.

Lemma medications_normalized_witness :
  dict_lookup sample_note_normalized (py "medications_taken")
  = Some (JList [ JDict [ (py "name", JStr (py "sertraline"));
                          (py "dose", JStr (py "50 mg"));
                          (py "route", JNull);
                          (py "frequency", JNull);
                          (py "duration", JNull);
                          (py "reason", JNull) ] ]).
Proof.
  refine (proj1 (medications_normalized upper lower sample_note sample_note_normalized
                   [ JDict [(py "name", JStr (py "Sertraline"));
                            (py "dose", JStr (py "50 mg"))];
                     JDict [(py "dose", JStr (py "1"))];
                     JInt 7 ] _ _)).
  - vm_compute. reflexivity.
  - reflexivity.
Defined.

Lemma diagnoses_normalized_witness :
  dict_lookup sample_note_normalized (py "diagnoses")
  = Some (JList [ JDict [ (py "label", JStr (py "Depression"));
                          (py "code", JStr (py "F32.1"));
                          (py "priority", JNull) ] ]).
Proof.
  refine (proj1 (diagnoses_normalized upper lower sample_note sample_note_normalized
                   [ JDict [(py "label", JStr (py "depression"));
                            (py "code", JStr (py "F32.1"))];
                     JStr (py "x") ] _ _)).
  - vm_compute. reflexivity.
  - reflexivity.
Defined.

Lemma postprocess_idempotent_witness :
  postprocess upper lower (JDict sample_note_normalized) = Ok (JDict sample_note_normalized).
Proof.
  apply (postprocess_idempotent upper lower ascii_upper_solid
           ascii_upper_head_fixed ascii_lower_solid ascii_lower_idem
           sample_note sample_note_normalized).
  - vm_compute. reflexivity.
  - intros s E. injection E as <-. intros _. vm_compute. reflexivity.
Defined.

Lemma postprocess_schema_witness :
  exists ph, dict_lookup sample_note_normalized (py "past_history") = Some (JStr ph) /\
             strip ph = ph /\ tidy_spacing false ph = true.
Proof.
  refine (proj1 (proj2 (proj2 (proj2
            (postprocess_schema upper lower ascii_upper_solid ascii_lower_solid
               sample_note sample_note_normalized _))))).
  vm_compute. reflexivity.
Defined.

Lemma postprocess_keys_witness :
  map fst sample_normalized
  = [py "age"; py "name"; py "ward"; py "mental_illnesses";
     py "medications_taken"; py "past_history"; py "diagnoses"].
Proof.
  refine (proj1 (postprocess_keys upper lower sample_record sample_normalized _)).
  vm_compute. reflexivity.
Defined.

Lemma illnesses_normalized_witness :
  dict_lookup sample_note_normalized (py "mental_illnesses")
  = Some (JList [JStr (py "Anxiety")]).
Proof.
  refine (proj1 (proj2 (illnesses_normalized upper lower sample_note sample_note_normalized
                          [JStr (py " anxiety "); JStr (py "  ")] _ _))).
  - vm_compute. reflexivity.
  - reflexivity.
Defined.

Lemma blank_text_rejected_witness :
  extract_patient_data upper lower no_pages no_paragraphs reply_object decode_sample
    exn_name [] text_upload [32; 10]
  = ([CallExtractText],
     HTTPException 400 (py "Could not read text from the file.")).
Proof.
  apply (blank_text_rejected upper lower _ _ _ _ _ _ text_upload [32; 10] [32; 10]).
  - discriminate.
  - reflexivity.
  - reflexivity.
Defined.

Lemma ok_response_is_normalised_witness :
  exists prompt reply data data',
    reply_object SYSTEM_PROMPT prompt = Ok reply /\
    decode_sample (strip_fences reply) = Ok (JDict data) /\
    postprocess upper lower (JDict data) = Ok (JDict data') /\
    JDict sample_note_normalized = JDict data' /\
    Forall (fun k => has_key data' k = true) normalized_keys.
Proof.
  apply (ok_response_is_normalised upper lower no_pages no_paragraphs reply_object
           decode_sample exn_name [] text_upload [104; 105]).
  vm_compute. reflexivity.
Defined.

Lemma normaliser_failure_is_500_witness :
  infer_and_normalize upper lower reply_list decode_sample exn_name (py "note")
  = ([CallInference SYSTEM_PROMPT (py "note")],
     HTTPException 500 (py "Extraction failed: AttributeError")).
Proof.
  apply (normaliser_failure_is_500 upper lower reply_list decode_sample exn_name
           (py "note") (py "[1]") (JList [JInt 1]) AttributeError);
    reflexivity.
Defined.

Lemma textless_pdf_rejected_witness :
  extract_patient_data upper lower no_pages no_paragraphs reply_object decode_sample
    exn_name [] pdf_upload [37; 80; 68; 70]
  = ([CallExtractText],
     HTTPException 400 (py "Could not read text from the file.")).
Proof.
  apply (textless_pdf_rejected upper lower no_pages no_paragraphs reply_object
           decode_sample exn_name [] pdf_upload [37; 80; 68; 70]
           [None; Some [32]; None]).
  - discriminate.
  - reflexivity.
  - reflexivity.
  - repeat constructor.
Defined.

Lemma illnesses_from_string_witness :
  dict_lookup
    [ (py "mental_illnesses", JList [JStr (py "P"); JStr (py "T")]);
      (py "name", JNull);
      (py "medications_taken", JList []);
      (py "past_history", JStr []);
      (py "diagnoses", JList []) ]
    (py "mental_illnesses")
  = Some (JList [JStr (py "P"); JStr (py "T")]).
Proof.
  refine (illnesses_from_string upper lower [(py "mental_illnesses", JStr (py "p t"))]
            _ (py "p t") _ _).
  - vm_compute. reflexivity.
  - reflexivity.
Defined.

Lemma records_from_text_or_object_witness :
  dict_lookup
    [ (py "diagnoses", JList []);
      (py "name", JNull);
      (py "mental_illnesses", JList []);
      (py "medications_taken", JList []);
      (py "past_history", JStr []) ]
    (py "diagnoses")
  = Some (JList []).
Proof.
  refine (records_from_text_or_object upper lower
            [(py "diagnoses", JDict [(py "label", JStr (py "flu"))])]
            _ (py "diagnoses") (JDict [(py "label", JStr (py "flu"))]) _ _ _ _).
  - vm_compute. reflexivity.
  - now right.
  - reflexivity.
  - right. now eexists.
Defined.
